(** * Split: pair-based sizing of panes separated by draggable gutters

    A shallow embedding of [src/split.js].  JavaScript numbers are IEEE 754
    binary64 values, modelled by Rocq's primitive floats; objects are
    records with exactly the properties the source gives them; the closure
    variables of one [Split] instance ([panes], [gutters],
    [draggingGutter], the options) form an explicit state that every
    function takes and returns.  What a function does to the host (the
    styles it writes, the option callbacks it calls, the listeners it
    registers on [window]) is recorded in that state; console output is
    left out.  A thrown TypeError is the outcome [Js.Threw]. *)

From Stdlib Require Import Floats ZArith.
From Stdlib Require Uint63.
From stdpp Require Import base option list strings.

Local Open Scope float_scope.

(** ** Numbers *)

Module Js.

(** The values that the sizing code reads from object properties.  Strings
    do not occur: sizes and minimum sizes are numbers (a size given as a
    string, which the source tolerates for styling, is outside the model). *)
Inductive value :=
| Undefined
| Null
| Bool (b : bool)
| Num (x : float)
| Ref (id : nat).

(** ECMAScript ToNumber; an object reference converts through its string
    form, which is not a numeric literal. *)
Definition ToNumber (v : value) : float :=
  match v with
  | Undefined => nan
  | Null => 0
  | Bool true => 1
  | Bool false => 0
  | Num x => x
  | Ref _ => nan
  end.

Definition isNaN (x : float) : bool := negb (x =? x).

(** ECMAScript ToBoolean, for [!v]. *)
Definition ToBoolean (v : value) : bool :=
  match v with
  | Undefined | Null => false
  | Bool b => b
  | Num x => negb (is_zero x || isNaN x)
  | Ref _ => true
  end.

(** [l + r] where neither operand is a string or an object: both are
    converted with ToNumber and added. *)
Definition add (l r : value) : float := ToNumber l + ToNumber r.

(** [l - r] and [l / r] always convert both operands with ToNumber. *)
Definition sub (l r : value) : float := ToNumber l - ToNumber r.
Definition div (l r : value) : float := ToNumber l / ToNumber r.

(** [Array.prototype.slice(start, end)] on integer arguments: a negative
    index counts from the end of the array. *)
Definition slice {A} (l : list A) (start end_ : Z) : list A :=
  let len := Z.of_nat (length l) in
  let k := if (start <? 0)%Z then Z.max (len + start) 0 else Z.min start len in
  let final := if (end_ <? 0)%Z then Z.max (len + end_) 0 else Z.min end_ len in
  take (Z.to_nat (final - k)) (drop (Z.to_nat k) l).

(** [l[k]] on an array: [None] stands for [undefined]. *)
Definition index {A} (l : list A) (k : Z) : option A :=
  if (k <? 0)%Z then None else l !! Z.to_nat k.

(** How a call ends: it returns, it throws a TypeError, or (for the model
    of a loop only) the fuel runs out while the condition still holds. *)
Inductive outcome (S : Type) :=
| Done (s : S)
| Threw
| OutOfFuel.
Arguments Done {S} s.
Arguments Threw {S}.
Arguments OutOfFuel {S}.

(** [while (cond) body]; a body that throws returns [None]. *)
Fixpoint while {S} (fuel : nat) (cond : S -> bool) (body : S -> option S)
    (s : S) : outcome S :=
  if cond s then
    match fuel with
    | O => OutOfFuel
    | Datatypes.S n =>
        match body s with
        | Some s' => while n cond body s'
        | None => Threw
        end
    end
  else Done s.

Definition bind {A B} (m : outcome A) (k : A -> outcome B) : outcome B :=
  match m with
  | Done x => k x
  | Threw => Threw
  | OutOfFuel => OutOfFuel
  end.

(** Reading a property of [o]: a TypeError when [o] is undefined. *)
Definition deref {A} (o : option A) : outcome A :=
  match o with
  | Some x => Done x
  | None => Threw
  end.

End Js.

#[export] Instance outcome_ret : MRet Js.outcome := @Js.Done.
#[export] Instance outcome_bind : MBind Js.outcome :=
  fun A B k m => Js.bind m k.

(** ** Data model *)

Module Rect.
(** What the host returns from [getBoundingClientRect]. *)
Record t := mk { width : float; height : float; left : float; top : float }.
End Rect.

(** A DOM element handle together with the rectangle the host currently
    reports for it.  Layout is the host's: no function below writes it. *)
Record Element := mkElement { node : nat; getBoundingClientRect : Rect.t }.

Inductive Direction := horizontal | vertical.

(** A function object made by [drag.bind(this)] or [stopDragging.bind(this)],
    where [this] is [{ gutterIndex }].  Every [bind] makes a new object;
    [fn_id] is its identity. *)
Inductive Code := drag_bound (gutterIndex : nat) | stopDragging_bound (gutterIndex : nat).
Record Fn := mkFn { fn_id : nat; fn_code : Code }.

Module Pane.
(** The object literal of the [ids.map] callback: these six properties and
    no other.  Only [size] and [minSize] are assigned afterwards. *)
Record t := mk {
  el : Element;
  minSize : Js.value;
  size : Js.value;
  isFirst : bool;
  isLast : bool;
  isCollapsed : bool;
}.

(** [p[name]]: a property the object does not have reads as undefined. *)
Definition get (p : t) (name : string) : Js.value :=
  match name with
  | "el" => Js.Ref (node (el p))
  | "minSize" => minSize p
  | "size" => size p
  | "isFirst" => Js.Bool (isFirst p)
  | "isLast" => Js.Bool (isLast p)
  | "isCollapsed" => Js.Bool (isCollapsed p)
  | _ => Js.Undefined
  end%string.

Definition set_size (v : Js.value) (p : t) : t :=
  mk (el p) (minSize p) v (isFirst p) (isLast p) (isCollapsed p).

Definition set_minSize (v : Js.value) (p : t) : t :=
  mk (el p) v (size p) (isFirst p) (isLast p) (isCollapsed p).
End Pane.

Module Gutter.
(** A property holding a bound listener: absent until [startDragging]
    assigns it, [null] after [stopDragging]. *)
Inductive slot := Absent | IsNull | Bound (f : Fn).

(** Pushed as [{ el: gutterElement }]; [startDragging] adds [move] and
    [stop], [stopDragging] adds [isDragging]. *)
Record t := mk {
  el : nat;
  isDragging : option bool;
  move : slot;
  stop : slot;
}.

Definition slot_value (s : slot) : Js.value :=
  match s with
  | Absent => Js.Undefined
  | IsNull => Js.Null
  | Bound f => Js.Ref (fn_id f)
  end.

(** [g[name]]: a property the object does not have reads as undefined. *)
Definition get (g : t) (name : string) : Js.value :=
  match name with
  | "el" => Js.Ref (el g)
  | "isDragging" => from_option Js.Bool Js.Undefined (isDragging g)
  | "move" => slot_value (move g)
  | "stop" => slot_value (stop g)
  | _ => Js.Undefined
  end%string.
End Gutter.

Module Pair.
(** The literal [{ a, b, g }] ([collapse] omits [g]); [size] and [start]
    exist only once [calculateSizes] has run on this very object. *)
Record t := mk {
  a : Z;
  b : Z;
  g : option Z;
  size : Js.value;
  start : Js.value;
}.

Definition literal (a b : Z) (g : option Z) : t :=
  mk a b g Js.Undefined Js.Undefined.

Definition set_a (v : Z) (p : t) : t := mk v (b p) (g p) (size p) (start p).
Definition set_b (v : Z) (p : t) : t := mk (a p) v (g p) (size p) (start p).
End Pair.

(** A pointer position, and the two kinds of event the handlers accept
    (['touches' in e] tells them apart). *)
Record Point := mkPoint { clientX : float; clientY : float }.
Inductive Event := MouseEvent (p : Point) | TouchEvent (touches : list Point).

Inductive EventType := mouseup | touchend | touchcancel | mousemove | touchmove.

#[export] Instance EventType_eq_dec : EqDecision EventType.
Proof. solve_decision. Defined.

(** What a handler does to the host besides updating the closure state:
    the option callbacks it calls and the styles it writes. *)
Inductive Where := OnGutter (i : nat) | OnParent | OnBody.
Inductive Effect :=
| onDragStart
| onDrag
| onDragEnd
| preventDefault
| elementStyle (el : Element) (size : Js.value) (gutSize : float)
| gutterStyle (gutter : nat) (gutSize : float)
| insertBefore (gutter : nat) (el : Element)
| cursorStyle (target : Where) (set : bool)
| selection (el : Element) (disabled : bool).

(** The options after [getOption] has applied the defaults. *)
Record Options := mkOptions {
  gutterSize : float;
  snapOffset : float;
  pushablePanes : bool;
  direction : Direction;
  isIE8 : bool;
}.

(** The closure of one [Split] call. *)
Record State := mkState {
  options : Options;
  panes : list Pane.t;
  gutters : list Gutter.t;
  (** [null], or the gutter object it refers to, named by its position in
      [gutters] (the array is never reordered). *)
  draggingGutter : option nat;
  (** The listeners registered on [window], in registration order. *)
  listeners : list (EventType * Fn);
  (** Identity of the next function object [bind] makes. *)
  next_fn : nat;
  (** Host effects so far, oldest first. *)
  effects : list Effect;
}.

Definition set_panes (ps : list Pane.t) (st : State) : State :=
  mkState (options st) ps (gutters st) (draggingGutter st) (listeners st)
    (next_fn st) (effects st).

Definition set_gutters (gs : list Gutter.t) (st : State) : State :=
  mkState (options st) (panes st) gs (draggingGutter st) (listeners st)
    (next_fn st) (effects st).

Definition set_draggingGutter (d : option nat) (st : State) : State :=
  mkState (options st) (panes st) (gutters st) d (listeners st)
    (next_fn st) (effects st).

Definition set_listeners (ls : list (EventType * Fn)) (st : State) : State :=
  mkState (options st) (panes st) (gutters st) (draggingGutter st) ls
    (next_fn st) (effects st).

Definition set_next_fn (n : nat) (st : State) : State :=
  mkState (options st) (panes st) (gutters st) (draggingGutter st)
    (listeners st) n (effects st).

Definition emit (es : list Effect) (st : State) : State :=
  mkState (options st) (panes st) (gutters st) (draggingGutter st)
    (listeners st) (next_fn st) (effects st ++ es).

(** ** The functions of the closure *)

Definition dimension (o : Options) (r : Rect.t) : float :=
  match direction o with
  | horizontal => Rect.width r
  | vertical => Rect.height r
  end.

Definition position (o : Options) (r : Rect.t) : float :=
  match direction o with
  | horizontal => Rect.left r
  | vertical => Rect.top r
  end.

Definition clientAxis (o : Options) (p : Point) : float :=
  match direction o with
  | horizontal => clientX p
  | vertical => clientY p
  end.

(** [applyPaneSize]: the style [elementStyle(dimension, size, gutSize)] is
    written to the pane's element. *)
Definition applyPaneSize (o : Options) (p : Pane.t) : Effect :=
  let gutSize :=
    if Pane.isFirst p || Pane.isLast p then gutterSize o / 2 else gutterSize o in
  elementStyle (Pane.el p) (Pane.size p) gutSize.

(** [setGutterSize] *)
Definition setGutterSize (gutterElement : nat) (gutSize : float) : Effect :=
  gutterStyle gutterElement gutSize.

(** [widthBetween]: the reducer destructures [size] out of each gutter
    object of the slice. *)
Definition widthBetween (st : State) (start end_ : Z) : float :=
  foldl (fun S g => Js.add (Js.Num S) (Gutter.get g "size")) 0
    (Js.slice (gutters st) start end_).

(** [panes[k].size = v] *)
Definition assign_size (k : Z) (v : Js.value) (st : State) : State :=
  if (k <? 0)%Z then st
  else set_panes (alter (Pane.set_size v) (Z.to_nat k) (panes st)) st.

(** The [pairSize] of [adjust] (line 215). *)
Definition pairSize (st : State) (this : Pair.t) (a b : Pane.t) : float :=
  Js.ToNumber (Pane.get a "pixelSize")
  + widthBetween st (Pair.a this) (Pair.b this)
  + Js.ToNumber (Pane.get b "pixelSize").

(** The [percentage] of [adjust] (line 214): [a.size + b.size] for the two
    panes of a pair, [None] when one of them does not exist. *)
Definition percentage (st : State) (this : Pair.t) : option float :=
  a ← Js.index (panes st) (Pair.a this);
  b ← Js.index (panes st) (Pair.b this);
  Some (Js.add (Pane.size a) (Pane.size b)).

(** [adjust.call(this, offset)] *)
Definition adjust (st : State) (this : Pair.t) (offset : Js.value)
    : Js.outcome State :=
  a ← Js.deref (Js.index (panes st) (Pair.a this));
  b ← Js.deref (Js.index (panes st) (Pair.b this));
  let percentage := Js.add (Pane.size a) (Pane.size b) in
  let pairSize := pairSize st this a b in
  let st := assign_size (Pair.a this)
              (Js.Num ((Js.ToNumber offset / pairSize) * percentage)) st in
  let st := assign_size (Pair.b this)
              (Js.Num (percentage - ((Js.ToNumber offset / pairSize) * percentage))) st in
  a ← Js.deref (Js.index (panes st) (Pair.a this));
  b ← Js.deref (Js.index (panes st) (Pair.b this));
  Js.Done (emit [applyPaneSize (options st) a; applyPaneSize (options st) b] st).

(** [calculateSizes.call(this)]: returns [this] with [size] and [start]
    assigned. *)
Definition calculateSizes (st : State) (this : Pair.t) : Js.outcome Pair.t :=
  a ← Js.deref (Js.index (panes st) (Pair.a this));
  let aBounds := getBoundingClientRect (Pane.el a) in
  b ← Js.deref (Js.index (panes st) (Pair.b this));
  let bBounds := getBoundingClientRect (Pane.el b) in
  Js.Done (Pair.mk (Pair.a this) (Pair.b this) (Pair.g this)
    (Js.Num (dimension (options st) aBounds
             + widthBetween st (Pair.a this) (Pair.b this)
             + dimension (options st) bBounds))
    (Js.Num (position (options st) aBounds))).

(** The offset of the event from [pair.start] (lines 273-281). *)
Definition eventOffset (o : Options) (e : Event) (pair : Pair.t)
    : Js.outcome float :=
  match e with
  | TouchEvent touches =>
      t0 ← Js.deref (touches !! 0%nat);
      Js.Done (clientAxis o t0 - Js.ToNumber (Pair.start pair))
  | MouseEvent p =>
      Js.Done (clientAxis o p - Js.ToNumber (Pair.start pair))
  end.

(** [if (!pair.size) calculateSizes.call(pair)] *)
Definition calculate_unless_sized (st : State) (pr : Pair.t)
    : option Pair.t :=
  if negb (Js.ToBoolean (Pair.size pr)) then
    match calculateSizes st pr with
    | Js.Done pair' => Some pair'
    | _ => None
    end
  else Some pr.

(** The [pushablePanes] block (lines 285-301); [pr] is the object [pair].  [a], [b] and [eventOffset]
    are the variables as they stand on entry: neither loop assigns them.
    The loops update [pair] and [pairOffset]. *)
Definition cascade (fuel : nat) (st : State) (a b : Pane.t)
    (eventOffset : float) (s : Pair.t * float) : Js.outcome (Pair.t * float) :=
  s ← Js.while fuel
         (fun _ => negb (Pane.isFirst a)
                   && (eventOffset <? Js.add (Pane.get a "start") (Pane.minSize a)))
         (fun '(pr, pairOffset) =>
            let pr := Pair.set_a (Pair.a pr - 1) pr in
            pr ← calculate_unless_sized st pr;
            Some (pr,
                  pairOffset
                  + (Js.sub (Pair.start pr) (Pair.start pr)
                     - Js.ToNumber (Pane.minSize a))))
         s;
  s ← Js.while fuel
         (fun '(pr, _) =>
            negb (Pane.isLast b)
            && (Js.sub (Pair.size pr) (Pane.minSize b) <? eventOffset))
         (fun '(pr, pairOffset) =>
            let pr := Pair.set_b (Pair.b pr + 1) pr in
            pr ← calculate_unless_sized st pr;
            Some (pr, pairOffset))
         s;
  pr ← calculateSizes st (fst s);
  Js.Done (pr, snd s).

(** The snap step (lines 303-310).  [a] and [b] are [panes[pair.a]] and
    [panes[pair.b]], so [panes[pair.a].gutterSize] reads [a]. *)
Definition snap (o : Options) (pr : Pair.t) (a b : Pane.t)
    (pairOffset : float) : float :=
  if pairOffset <=? Js.ToNumber (Pane.minSize a) + snapOffset o
                    + Js.ToNumber (Pane.get a "gutterSize")
  then Js.add (Pane.minSize a) (Pane.get a "gutterSize")
  else if Js.ToNumber (Pair.size pr)
          - (Js.ToNumber (Pane.minSize b) + snapOffset o
             + Js.ToNumber (Pane.get b "gutterSize")) <=? pairOffset
  then Js.ToNumber (Pair.size pr)
       - Js.add (Pane.minSize b) (Pane.get b "gutterSize")
  else pairOffset.

(** Everything [drag] computes before it calls [adjust]: the pair it
    adjusts and the offset it passes. *)
Definition drag_target (fuel : nat) (st : State) (this : nat) (e : Event)
    : Js.outcome (Pair.t * float) :=
  let pr := Pair.literal (Z.of_nat this) (Z.of_nat this + 1)
                (Some (Z.of_nat this)) in
  offset ← eventOffset (options st) e pr;
  a ← Js.deref (Js.index (panes st) (Pair.a pr));
  b ← Js.deref (Js.index (panes st) (Pair.b pr));
  let pairOffset := offset in
  '(pr, pairOffset) ←
     (if pushablePanes (options st)
      then cascade fuel st a b offset (pr, pairOffset)
      else Js.Done (pr, pairOffset));
  a ← Js.deref (Js.index (panes st) (Pair.a pr));
  b ← Js.deref (Js.index (panes st) (Pair.b pr));
  Js.Done (pr, snap (options st) pr a b pairOffset).

(** [drag.call({ gutterIndex: this }, e)] *)
Definition drag (fuel : nat) (st : State) (this : nat) (e : Event)
    : Js.outcome State :=
  match draggingGutter st with
  | None => Js.Done st
  | Some _ =>
      '(pr, pairOffset) ← drag_target fuel st this e;
      st ← adjust st pr (Js.Num pairOffset);
      Js.Done (emit [onDrag] st)
  end.

(** *** Listeners on [window] *)

Definition same_listener (t : EventType) (f : Fn) (l : EventType * Fn) : bool :=
  bool_decide (l.1 = t) && Nat.eqb (fn_id l.2) (fn_id f).

(** [global.addEventListener(t, f)]: a listener already registered for the
    same type is not added twice. *)
Definition addEventListener (t : EventType) (f : Fn)
    (ls : list (EventType * Fn)) : list (EventType * Fn) :=
  if existsb (same_listener t f) ls then ls else ls ++ [(t, f)].

(** [global.removeEventListener(t, s)]: nothing happens when [s] holds no
    registered function. *)
Definition removeEventListener (t : EventType) (s : Gutter.slot)
    (ls : list (EventType * Fn)) : list (EventType * Fn) :=
  match s with
  | Gutter.Bound f => List.filter (fun l => negb (same_listener t f l)) ls
  | _ => ls
  end.

(** [stopDragging.call({ gutterIndex: this })] *)
Definition stopDragging (st : State) (this : nat) : Js.outcome State :=
  g ← Js.deref (gutters st !! this);
  a ← Js.deref (panes st !! this);
  b ← Js.deref (panes st !! (this + 1)%nat);
  let st := match draggingGutter st with
            | Some _ => emit [onDragEnd] st
            | None => st
            end in
  let g := Gutter.mk (Gutter.el g) (Some false) (Gutter.move g) (Gutter.stop g) in
  let st := set_listeners
              (removeEventListener touchmove (Gutter.move g)
              (removeEventListener mousemove (Gutter.move g)
              (removeEventListener touchcancel (Gutter.stop g)
              (removeEventListener touchend (Gutter.stop g)
              (removeEventListener mouseup (Gutter.stop g)
                 (listeners st)))))) st in
  let g := Gutter.mk (Gutter.el g) (Gutter.isDragging g) Gutter.IsNull Gutter.IsNull in
  let st := set_gutters (<[this := g]> (gutters st)) st in
  Js.Done (emit [cursorStyle (OnGutter this) false;
                 selection (Pane.el a) false;
                 selection (Pane.el b) false;
                 cursorStyle OnParent false;
                 cursorStyle OnBody false] st).

(** [startDragging.call({ gutterIndex: this }, e)].  The pair that
    [calculateSizes] fills in is the local object of this call. *)
Definition startDragging_pair (st : State) (this : nat) : Js.outcome Pair.t :=
  calculateSizes st
    (Pair.literal (Z.of_nat this) (Z.of_nat this + 1) (Some (Z.of_nat this))).

Definition startDragging (st : State) (this : nat) (e : Event)
    : Js.outcome State :=
  a ← Js.deref (panes st !! this);
  b ← Js.deref (panes st !! (this + 1)%nat);
  g ← Js.deref (gutters st !! this);
  let st := match draggingGutter st with
            | None => emit [onDragStart] st
            | Some _ => st
            end in
  let st := emit [preventDefault] st in
  let st := set_draggingGutter (Some this) st in
  let move := mkFn (next_fn st) (drag_bound this) in
  let stop := mkFn (S (next_fn st)) (stopDragging_bound this) in
  let st := set_next_fn (S (S (next_fn st))) st in
  let g := Gutter.mk (Gutter.el g) (Gutter.isDragging g)
             (Gutter.Bound move) (Gutter.Bound stop) in
  let st := set_gutters (<[this := g]> (gutters st)) st in
  let st := emit [cursorStyle (OnGutter this) true] st in
  let st := set_listeners
              (addEventListener touchmove move
              (addEventListener mousemove move
              (addEventListener touchcancel stop
              (addEventListener touchend stop
              (addEventListener mouseup stop (listeners st)))))) st in
  let st := emit [selection (Pane.el a) true;
                  selection (Pane.el b) true;
                  cursorStyle OnParent true;
                  cursorStyle OnBody true] st in
  _ ← startDragging_pair st this;
  Js.Done st.

(** *** The public operations *)

(** [setSizes(newSizes)]: the [forEach] callback, from index [i] on. *)
Fixpoint setSizes_from (i : nat) (newSizes : list Js.value) (st : State)
    : Js.outcome State :=
  match newSizes with
  | [] => Js.Done st
  | newSize :: rest =>
      _ ← Js.deref (panes st !! i);
      let st := set_panes (alter (Pane.set_size newSize) i (panes st)) st in
      p ← Js.deref (panes st !! i);
      setSizes_from (S i) rest (emit [applyPaneSize (options st) p] st)
  end.

Definition setSizes (st : State) (newSizes : list Js.value) : Js.outcome State :=
  setSizes_from 0 newSizes st.

Definition getSizes (st : State) : list Js.value :=
  map Pane.size (panes st).

(** [collapse(i)]: [adjust] is called with no argument, so its [offset]
    parameter is undefined. *)
Definition collapse (st : State) (i : Z) : Js.outcome State :=
  let n := Z.of_nat (length (panes st)) in
  let pr := Pair.literal (if (i =? n)%Z then i - 1 else i)%Z
                         (if (i =? n)%Z then i else i + 1)%Z None in
  pr ← calculateSizes st pr;
  if negb (isIE8 (options st)) then adjust st pr Js.Undefined
  else Js.Done st.

(** How often the option callbacks have been called. *)
Definition is_onDragStart (e : Effect) : bool :=
  match e with onDragStart => true | _ => false end.
Definition is_onDragEnd (e : Effect) : bool :=
  match e with onDragEnd => true | _ => false end.
Definition calls (which : Effect -> bool) (st : State) : nat :=
  length (List.filter which (effects st)).

(** [f] is registered on [window] for events of type [t]. *)
Definition registered (t : EventType) (f : Fn) (st : State) : bool :=
  existsb (same_listener t f) (listeners st).

(** *** Construction *)

Module Config.
(** The [options] argument; [None] is a missing option. *)
Inductive minSizeOption := scalar (v : Js.value) | array (l : list Js.value).
Record t := mk {
  sizes : option (list Js.value);
  minSize : option minSizeOption;
  gutterSize : option float;
  snapOffset : option float;
  pushablePanes : option bool;
  direction : option Direction;
}.
End Config.

(** [getOption] *)
Definition getOption {A} (value : option A) (def : A) : A :=
  match value with
  | Some v => v
  | None => def
  end.

(** A pane count as a number. *)
Definition float_of_nat (n : nat) : float :=
  PrimFloat.of_uint63 (Uint63.of_Z (Z.of_nat n)).

(** [l[i]] as a value. *)
Definition at_index (l : list Js.value) (i : nat) : Js.value :=
  from_option id Js.Undefined (l !! i).

(** One step of [ids.map]: the pane for [ids[i]], after the gutter (if
    any) has been pushed.  The rectangle of [id] is the one the host
    reports once the pane style is applied. *)
Definition make_pane (o : Options) (sizes minSizes : list Js.value)
    (count : nat) (i : nat) (id : Element) (st : State) : State :=
  let pane := Pane.mk id (at_index minSizes i) (at_index sizes i)
                (Nat.eqb i 0) (Z.eqb (Z.of_nat i) (Z.of_nat count - 1)) false in
  let st :=
    if (0 <? i)%nat && negb (isIE8 o) then
      let gutterIndex := length (gutters st) in
      emit [insertBefore gutterIndex (Pane.el pane)]
        (set_gutters (gutters st ++ [Gutter.mk gutterIndex None Gutter.Absent Gutter.Absent])
           (emit [setGutterSize gutterIndex (gutterSize o)] st))
    else st in
  let st := emit [applyPaneSize o pane] st in
  let computedSize := dimension o (getBoundingClientRect (Pane.el pane)) in
  let pane := if computedSize <? Js.ToNumber (Pane.minSize pane)
              then Pane.set_minSize (Js.Num computedSize) pane
              else pane in
  set_panes (panes st ++ [pane]) st.

Fixpoint make_panes (o : Options) (sizes minSizes : list Js.value)
    (count : nat) (i : nat) (ids : list Element) (st : State) : State :=
  match ids with
  | [] => st
  | id :: rest =>
      make_panes o sizes minSizes count (S i) rest
        (make_pane o sizes minSizes count i id st)
  end.

(** [Split(ids, options)]: [ids[0]] must exist, its parent is read first. *)
Definition Split (ie8 : bool) (ids : list Element) (c : Config.t)
    : Js.outcome State :=
  _ ← Js.deref (ids !! 0%nat);
  let count := length ids in
  let sizes := getOption (Config.sizes c)
                 (map (fun _ => Js.Num (100 / float_of_nat count)) ids) in
  let minSize := getOption (Config.minSize c) (Config.scalar (Js.Num 100)) in
  let minSizes := match minSize with
                  | Config.array l => l
                  | Config.scalar v => map (fun _ => v) ids
                  end in
  let o := mkOptions (getOption (Config.gutterSize c) 10)
             (getOption (Config.snapOffset c) 30)
             (getOption (Config.pushablePanes c) false)
             (getOption (Config.direction c) horizontal)
             ie8 in
  Js.Done (make_panes o sizes minSizes count 0 ids
             (mkState o [] [] None [] 0 [])).

(** What the pane that [ids.map] makes of [ids[i]] looks like. *)
Definition built (o : Options) (sizes minSizes : list Js.value) (count i : nat)
    (id : Element) (p : Pane.t) : Prop :=
  Pane.el p = id
  /\ Pane.size p = at_index sizes i
  /\ Pane.isFirst p = Nat.eqb i 0
  /\ Pane.isLast p = (Z.of_nat i =? Z.of_nat count - 1)%Z
  /\ Pane.isCollapsed p = false
  /\ (dimension o (getBoundingClientRect id) <? Js.ToNumber (Pane.minSize p)) = false
  /\ Pane.minSize p
     = if dimension o (getBoundingClientRect id) <? Js.ToNumber (at_index minSizes i)
       then Js.Num (dimension o (getBoundingClientRect id))
       else at_index minSizes i.


(** *** Teardown *)

(** What [destroy] does to the host. *)
Inductive Teardown :=
| removed (el : nat)
| clearDimension (el : Element).

(** The argument of [parent.removeChild]: a DOM node, or the gutter object
    [{ el, ... }] itself, which is what [destroy] passes ([g], not [g.el]). *)
Inductive Child := node_of (el : nat) | gutter_object (g : Gutter.t).

(** [parent.removeChild(child)]: the host throws a TypeError when the
    argument is not a node. *)
Definition removeChild (child : Child) : Js.outcome (list Teardown) :=
  match child with
  | node_of el => Js.Done [removed el]
  | gutter_object _ => Js.Threw
  end.

(** [gutters.forEach(g => { parent.removeChild(g) })] *)
Fixpoint remove_gutters (gs : list Gutter.t) : Js.outcome (list Teardown) :=
  match gs with
  | [] => Js.Done []
  | g :: rest =>
      r ← removeChild (gutter_object g);
      r' ← remove_gutters rest;
      Js.Done (r ++ r')
  end.

(** [destroy()]: the closure state is not assigned. *)
Definition destroy (st : State) : Js.outcome (list Teardown) :=
  r ← remove_gutters (gutters st);
  Js.Done (r ++ map (fun p => clearDimension (Pane.el p)) (panes st)).

(** *** Runs *)

(** The calls an instance receives: the two listeners of a gutter element,
    the functions [startDragging] binds and registers on [window], and the
    public operations. *)
Inductive Input :=
| pointer_down (gutterIndex : nat) (e : Event)
| pointer_move (gutterIndex : nat) (e : Event)
| pointer_stop (gutterIndex : nat)
| call_setSizes (newSizes : list Js.value)
| call_collapse (i : Z).

Definition step (fuel : nat) (st : State) (i : Input) : Js.outcome State :=
  match i with
  | pointer_down g e => startDragging st g e
  | pointer_move g e => drag fuel st g e
  | pointer_stop g => stopDragging st g
  | call_setSizes newSizes => setSizes st newSizes
  | call_collapse i => collapse st i
  end.

(** The calls of [inputs] one after the other, up to the first that
    throws. *)
Fixpoint run (fuel : nat) (inputs : list Input) (st : State) : Js.outcome State :=
  match inputs with
  | [] => Js.Done st
  | i :: rest => st ← step fuel st i; run fuel rest st
  end.

(** ** Scenarios *)

#[local] Set Warnings "-inexact-float".

(** Three panes of sizes 33.3, 33.3 and 33.4 in a split 900 pixels wide,
    with two gutters of 10 pixels. *)
Definition three_ids : list Element :=
  [mkElement 0 (Rect.mk 294.7 400 0 0);
   mkElement 1 (Rect.mk 289.7 400 304.7 0);
   mkElement 2 (Rect.mk 295.6 400 604.4 0)].

Definition three_config (pushable : bool) : Config.t :=
  Config.mk (Some [Js.Num 33.3; Js.Num 33.3; Js.Num 33.4])
    (Some (Config.scalar (Js.Num 100))) (Some 10) (Some 30) (Some pushable) None.

Definition three_panes : State :=
  ltac:(let r := eval vm_compute in (Split false three_ids (three_config false)) in
        match r with Js.Done ?st => exact st end).

Definition three_pushable : State :=
  ltac:(let r := eval vm_compute in (Split false three_ids (three_config true)) in
        match r with Js.Done ?st => exact st end).

(** Two panes under the default options, laid out from x = 20. *)
Definition two_ids : list Element :=
  [mkElement 0 (Rect.mk 445 400 20 0);
   mkElement 1 (Rect.mk 445 400 475 0)].

Definition no_options : Config.t := Config.mk None None None None None None.

Definition two_panes : State :=
  ltac:(let r := eval vm_compute in (Split false two_ids no_options) in
        match r with Js.Done ?st => exact st end).

(** A mouse event at the given x. *)
Definition mouse_at (x : float) : Event := MouseEvent (mkPoint x 200).

(** The three panes after a pointer-down on the first gutter. *)
Definition dragging_first : State :=
  ltac:(let r := eval vm_compute in (startDragging three_panes 0 (mouse_at 300)) in
        match r with Js.Done ?st => exact st end).

(** ... and after a move event at x = 400 on that gutter. *)
Definition dragged_first : State :=
  ltac:(let r := eval vm_compute in (drag 0 dragging_first 0 (mouse_at 400)) in
        match r with Js.Done ?st => exact st end).

(** The three panes after a pointer-down on the first gutter and then,
    with no stop event in between, one on the second gutter. *)
Definition rebound_to_second : State :=
  ltac:(let r := eval vm_compute in (startDragging dragging_first 1 (mouse_at 600)) in
        match r with Js.Done ?st => exact st end).

(** The pushable split after a pointer-down on the second gutter. *)
Definition pushable_dragging_second : State :=
  ltac:(let r := eval vm_compute in (startDragging three_pushable 1 (mouse_at 600)) in
        match r with Js.Done ?st => exact st end).

(** The two panes after a pointer-down on their gutter. *)
Definition two_dragging : State :=
  ltac:(let r := eval vm_compute in (startDragging two_panes 0 (mouse_at 470)) in
        match r with Js.Done ?st => exact st end).

(** ... and after the stop event that ends that session. *)
Definition two_stopped : State :=
  ltac:(let r := eval vm_compute in (stopDragging two_dragging 0) in
        match r with Js.Done ?st => exact st end).

(** Two panes of which the first is laid out 60 pixels wide, below the
    default minimum of 100. *)
Definition narrow_ids : list Element :=
  [mkElement 0 (Rect.mk 60 400 0 0);
   mkElement 1 (Rect.mk 830 400 70 0)].

Definition narrow_panes : State :=
  ltac:(let r := eval vm_compute in (Split false narrow_ids no_options) in
        match r with Js.Done ?st => exact st end).

(** A single pane: a split without a gutter. *)
Definition one_pane : State :=
  ltac:(let r := eval vm_compute in
                   (Split false [mkElement 0 (Rect.mk 900 400 0 0)] no_options) in
        match r with Js.Done ?st => exact st end).

(** The minimum size that the options give to pane [i]. *)
Definition configured_minSize (c : Config.t) (count i : nat) : Js.value :=
  match getOption (Config.minSize c) (Config.scalar (Js.Num 100)) with
  | Config.array l => at_index l i
  | Config.scalar v => if (i <? count)%nat then v else Js.Undefined
  end.

(** The functions that a pointer-down on gutter [this] binds when the
    next function identity is [n], and the listeners it registers. *)
Definition move_fn (n this : nat) : Fn := mkFn n (drag_bound this).
Definition stop_fn (n this : nat) : Fn := mkFn (S n) (stopDragging_bound this).
Definition session_listeners (n this : nat) : list (EventType * Fn) :=
  [(mouseup, stop_fn n this); (touchend, stop_fn n this);
   (touchcancel, stop_fn n this); (mousemove, move_fn n this);
   (touchmove, move_fn n this)].

(** Every function on [window] was made before the next identity. *)
Definition listeners_fresh (st : State) : Prop :=
  Forall (fun l => (fn_id l.2 < next_fn st)%nat) (listeners st).

Definition is_pointer_down (i : Input) : bool :=
  match i with pointer_down _ _ => true | _ => false end.

(** Three panes after two pointer-downs on the first gutter with no stop
    in between, and after the stop that follows. *)
Definition started_twice : State :=
  ltac:(let r := eval vm_compute in
                   (run 0 [pointer_down 0 (mouse_at 300); pointer_down 0 (mouse_at 300)]
                      three_panes) in
        match r with Js.Done ?st => exact st end).

Definition started_twice_stopped : State :=
  ltac:(let r := eval vm_compute in (stopDragging started_twice 0) in
        match r with Js.Done ?st => exact st end).

(** Three panes after a whole session on the first gutter and a
    collapse of the middle pane. *)
Definition collapsed_after_drag : State :=
  ltac:(let r := eval vm_compute in
                   (run 0 [pointer_down 0 (mouse_at 300); pointer_move 0 (mouse_at 400);
                           pointer_stop 0; call_collapse 1] three_panes) in
        match r with Js.Done ?st => exact st end).

(** Two panes after two whole sessions on their gutter. *)
Definition two_sessions : State :=
  ltac:(let r := eval vm_compute in
                   (run 0 [pointer_down 0 (mouse_at 470); pointer_stop 0;
                           pointer_down 0 (mouse_at 470); pointer_stop 0] two_panes) in
        match r with Js.Done ?st => exact st end).

(** *** NaN is absorbing for the arithmetic and fails every comparison *)

Lemma add_nan_l (y : float) : nan + y = nan.
Proof.
  apply Prim2SF_inj. rewrite FloatAxioms.add_spec.
  change (Prim2SF nan) with S754_nan. reflexivity.
Qed.

Lemma add_nan_r (x : float) : x + nan = nan.
Proof.
  apply Prim2SF_inj. rewrite FloatAxioms.add_spec.
  change (Prim2SF nan) with S754_nan.
  destruct (Prim2SF x); reflexivity.
Qed.

Lemma sub_nan_l (y : float) : nan - y = nan.
Proof.
  apply Prim2SF_inj. rewrite FloatAxioms.sub_spec.
  change (Prim2SF nan) with S754_nan. reflexivity.
Qed.

Lemma sub_nan_r (x : float) : x - nan = nan.
Proof.
  apply Prim2SF_inj. rewrite FloatAxioms.sub_spec.
  change (Prim2SF nan) with S754_nan.
  destruct (Prim2SF x); reflexivity.
Qed.

Lemma div_nan_l (y : float) : nan / y = nan.
Proof.
  apply Prim2SF_inj. rewrite FloatAxioms.div_spec.
  change (Prim2SF nan) with S754_nan. reflexivity.
Qed.

Lemma div_nan_r (x : float) : x / nan = nan.
Proof.
  apply Prim2SF_inj. rewrite FloatAxioms.div_spec.
  change (Prim2SF nan) with S754_nan.
  destruct (Prim2SF x); reflexivity.
Qed.

Lemma mul_nan_l (y : float) : nan * y = nan.
Proof.
  apply Prim2SF_inj. rewrite FloatAxioms.mul_spec.
  change (Prim2SF nan) with S754_nan. reflexivity.
Qed.

Lemma mul_nan_r (x : float) : x * nan = nan.
Proof.
  apply Prim2SF_inj. rewrite FloatAxioms.mul_spec.
  change (Prim2SF nan) with S754_nan.
  destruct (Prim2SF x); reflexivity.
Qed.

Lemma ltb_nan_l (y : float) : (nan <? y) = false.
Proof.
  rewrite FloatAxioms.ltb_spec. change (Prim2SF nan) with S754_nan. reflexivity.
Qed.

Lemma ltb_nan_r (x : float) : (x <? nan) = false.
Proof.
  rewrite FloatAxioms.ltb_spec. change (Prim2SF nan) with S754_nan.
  destruct (Prim2SF x) as [[]|[]| |[]]; reflexivity.
Qed.

Lemma leb_nan_l (y : float) : (nan <=? y) = false.
Proof.
  rewrite FloatAxioms.leb_spec. change (Prim2SF nan) with S754_nan. reflexivity.
Qed.

Lemma leb_nan_r (x : float) : (x <=? nan) = false.
Proof.
  rewrite FloatAxioms.leb_spec. change (Prim2SF nan) with S754_nan.
  destruct (Prim2SF x) as [[]|[]| |[]]; reflexivity.
Qed.

Lemma eqb_nan_r (x : float) : (x =? nan) = false.
Proof.
  rewrite FloatAxioms.eqb_spec. change (Prim2SF nan) with S754_nan.
  destruct (Prim2SF x) as [[]|[]| |[]]; reflexivity.
Qed.

Create Rewrite HintDb nan.
#[export] Hint Rewrite add_nan_l add_nan_r sub_nan_l sub_nan_r div_nan_l
  div_nan_r mul_nan_l mul_nan_r ltb_nan_l ltb_nan_r leb_nan_l leb_nan_r
  eqb_nan_r : nan.

(** ** Properties of the helpers *)

Lemma while_false {S} (fuel : nat) (cond : S -> bool) (body : S -> option S)
    (s : S) :
  cond s = false -> Js.while fuel cond body s = Js.Done s.
Proof. intros H. destruct fuel; simpl; rewrite H; reflexivity. Qed.

Lemma index_of_nat {A} (l : list A) (n : nat) : Js.index l (Z.of_nat n) = l !! n.
Proof.
  unfold Js.index.
  destruct (Z.ltb_spec (Z.of_nat n) 0); [lia|]. by rewrite Nat2Z.id.
Qed.

Lemma index_Some {A} (l : list A) (k : Z) (x : A) :
  Js.index l k = Some x -> (0 <= k)%Z /\ l !! Z.to_nat k = Some x.
Proof.
  unfold Js.index. destruct (Z.ltb_spec k 0); [discriminate|]. auto.
Qed.

(** Reading the properties that exist, and those that do not. *)
Example Pane_get_own (p : Pane.t) :
  Pane.get p "size" = Pane.size p /\ Pane.get p "minSize" = Pane.minSize p.
Proof. split; reflexivity. Qed.

Example Pane_get_absent (p : Pane.t) :
  Pane.get p "pixelSize" = Js.Undefined
  /\ Pane.get p "start" = Js.Undefined
  /\ Pane.get p "gutterSize" = Js.Undefined.
Proof. repeat split; reflexivity. Qed.

Example Gutter_get_absent (g : Gutter.t) : Gutter.get g "size" = Js.Undefined.
Proof. reflexivity. Qed.

(** No gutter object has a [size]: the fold meets [NaN] at its first
    element and keeps it. *)
Lemma fold_sizes_nan (l : list Gutter.t) :
  foldl (fun S g => Js.add (Js.Num S) (Gutter.get g "size")) nan l = nan.
Proof.
  induction l as [|g l IH]; [reflexivity|]. exact IH.
Qed.

Lemma widthBetween_nan (st : State) (start end_ : Z) :
  Js.slice (gutters st) start end_ <> [] -> widthBetween st start end_ = nan.
Proof.
  unfold widthBetween. destruct (Js.slice _ _ _) as [|g l]; [done|]. intros _.
  exact (fold_sizes_nan l).
Qed.

Lemma widthBetween_empty (st : State) (start end_ : Z) :
  Js.slice (gutters st) start end_ = [] -> widthBetween st start end_ = 0.
Proof. unfold widthBetween. by intros ->. Qed.

(** No pane object has a [pixelSize]: [adjust] always divides by [NaN]. *)
Lemma pairSize_nan (st : State) (this : Pair.t) (a b : Pane.t) :
  pairSize st this a b = nan.
Proof. unfold pairSize. simpl. by rewrite add_nan_l, add_nan_l. Qed.

Lemma assign_size_panes (k : Z) (v : Js.value) (st : State) :
  (0 <= k)%Z ->
  panes (assign_size k v st) = alter (Pane.set_size v) (Z.to_nat k) (panes st).
Proof.
  intros Hk. unfold assign_size. destruct (Z.ltb_spec k 0); [lia|]. reflexivity.
Qed.

(** What [adjust] does when it returns: both sizes are assigned from the
    same quotient, and nothing but the two panes and the style writes
    changes. *)
Lemma adjust_inv (st st' : State) (this : Pair.t) (offset : Js.value) :
  adjust st this offset = Js.Done st' ->
  exists a b,
    Js.index (panes st) (Pair.a this) = Some a
    /\ Js.index (panes st) (Pair.b this) = Some b
    /\ panes st' =
         alter (Pane.set_size
                  (Js.Num (Js.add (Pane.size a) (Pane.size b)
                           - Js.ToNumber offset / pairSize st this a b
                             * Js.add (Pane.size a) (Pane.size b))))
           (Z.to_nat (Pair.b this))
           (alter (Pane.set_size
                     (Js.Num (Js.ToNumber offset / pairSize st this a b
                              * Js.add (Pane.size a) (Pane.size b))))
              (Z.to_nat (Pair.a this)) (panes st))
    /\ options st' = options st
    /\ gutters st' = gutters st
    /\ draggingGutter st' = draggingGutter st
    /\ listeners st' = listeners st.
Proof.
  unfold adjust. intros H.
  destruct (Js.index (panes st) (Pair.a this)) as [a|] eqn:Ha; [|discriminate].
  destruct (Js.index (panes st) (Pair.b this)) as [b|] eqn:Hb; [|discriminate].
  simpl in H. exists a, b. split; [done|]. split; [done|].
  destruct (index_Some _ _ _ Ha) as [Ha0 _].
  destruct (index_Some _ _ _ Hb) as [Hb0 _].
  match type of H with
  | context [Js.deref ?o] => destruct o; [|discriminate]
  end. simpl in H.
  match type of H with
  | context [Js.deref ?o] => destruct o; [|discriminate]
  end. simpl in H.
  injection H as <-. simpl.
  rewrite !assign_size_panes by done.
  repeat split;
    unfold assign_size;
    destruct (Pair.a this <? 0)%Z, (Pair.b this <? 0)%Z; reflexivity.
Qed.

Lemma lookup_alter_Some {A} (f : A -> A) (l : list A) (i j : nat) (x : A) :
  l !! i = Some x -> exists y, alter f j l !! i = Some y.
Proof.
  intros H. destruct (decide (j = i)) as [->|Hne].
  - rewrite list_lookup_alter_eq, H. simpl. eauto.
  - rewrite list_lookup_alter_ne by done. eauto.
Qed.

(** [adjust] returns whenever both panes of the pair exist. *)
Lemma adjust_total (st : State) (this : Pair.t) (offset : Js.value) (a b : Pane.t) :
  Js.index (panes st) (Pair.a this) = Some a ->
  Js.index (panes st) (Pair.b this) = Some b ->
  exists st', adjust st this offset = Js.Done st'.
Proof.
  intros Ha Hb. unfold adjust. rewrite Ha, Hb. simpl.
  destruct (index_Some _ _ _ Ha) as [Ha0 Ha1].
  destruct (index_Some _ _ _ Hb) as [Hb0 Hb1].
  unfold Js.index.
  destruct (Z.ltb_spec (Pair.a this) 0); [lia|].
  destruct (Z.ltb_spec (Pair.b this) 0); [lia|].
  rewrite !assign_size_panes by done.
  set (f := Pane.set_size _). set (h := Pane.set_size _).
  destruct (lookup_alter_Some h _ _ (Z.to_nat (Pair.a this)) _ Ha1) as [a1 Ha2].
  destruct (lookup_alter_Some f _ _ (Z.to_nat (Pair.b this)) _ Ha2) as [a3 Ha3].
  destruct (lookup_alter_Some h _ _ (Z.to_nat (Pair.a this)) _ Hb1) as [b1 Hb2].
  destruct (lookup_alter_Some f _ _ (Z.to_nat (Pair.b this)) _ Hb2) as [b3 Hb3].
  rewrite Ha3. simpl. rewrite Hb3. simpl. eauto.
Qed.

(** A pair literal has no [start]: the event offset taken from it is [NaN]
    whatever the pointer coordinate. *)
Lemma eventOffset_literal (o : Options) (e : Event) (a b : Z) (g : option Z)
    (x : float) :
  eventOffset o e (Pair.literal a b g) = Js.Done x -> x = nan.
Proof.
  destruct e as [p|[|t ts]]; simpl; [|discriminate|];
    intros [= <-]; apply sub_nan_r.
Qed.

Lemma calculateSizes_inv (st : State) (this pr : Pair.t) :
  calculateSizes st this = Js.Done pr ->
  exists a b,
    Js.index (panes st) (Pair.a this) = Some a
    /\ Js.index (panes st) (Pair.b this) = Some b
    /\ pr = Pair.mk (Pair.a this) (Pair.b this) (Pair.g this)
              (Js.Num (dimension (options st) (getBoundingClientRect (Pane.el a))
                       + widthBetween st (Pair.a this) (Pair.b this)
                       + dimension (options st) (getBoundingClientRect (Pane.el b))))
              (Js.Num (position (options st) (getBoundingClientRect (Pane.el a)))).
Proof.
  unfold calculateSizes. intros H.
  destruct (Js.index (panes st) (Pair.a this)) as [a|]; [|discriminate].
  destruct (Js.index (panes st) (Pair.b this)) as [b|]; [|discriminate].
  simpl in H. injection H as <-. eauto.
Qed.

Lemma calculateSizes_total (st : State) (this : Pair.t) (a b : Pane.t) :
  Js.index (panes st) (Pair.a this) = Some a ->
  Js.index (panes st) (Pair.b this) = Some b ->
  exists pr, calculateSizes st this = Js.Done pr.
Proof. intros Ha Hb. unfold calculateSizes. rewrite Ha, Hb. simpl. eauto. Qed.

(** Both loops of the pushable block test a comparison with [NaN]: no
    pane has a [start], and the pair has no [size] before the loops.
    Neither body runs, for any amount of fuel. *)
Lemma cascade_no_iteration (fuel : nat) (st : State) (a b : Pane.t)
    (off x : float) (pr : Pair.t) :
  Pair.size pr = Js.Undefined ->
  cascade fuel st a b off (pr, x)
  = (pr' ← calculateSizes st pr; Js.Done (pr', x)).
Proof.
  intros Hsize. unfold cascade.
  rewrite while_false.
  2:{ unfold Js.add. simpl. autorewrite with nan. apply andb_false_r. }
  simpl. rewrite while_false.
  2:{ unfold Js.sub. rewrite Hsize. simpl. autorewrite with nan.
      apply andb_false_r. }
  reflexivity.
Qed.

(** No pane has a [gutterSize]: both tests of the snap step compare with
    [NaN], so the step returns its argument. *)
Lemma snap_id (o : Options) (pr : Pair.t) (a b : Pane.t) (x : float) :
  snap o pr a b x = x.
Proof.
  unfold snap. simpl. by autorewrite with nan.
Qed.

(** What [drag] hands to [adjust]: the pair of the gutter itself, never a
    wider one, and [NaN] as the offset. *)
Lemma drag_target_inv (fuel : nat) (st : State) (this : nat) (e : Event)
    (pr : Pair.t) (x : float) :
  drag_target fuel st this e = Js.Done (pr, x) ->
  exists a b,
    panes st !! this = Some a
    /\ panes st !! S this = Some b
    /\ Pair.a pr = Z.of_nat this
    /\ Pair.b pr = Z.of_nat (S this)
    /\ x = nan.
Proof.
  unfold drag_target. intros H.
  destruct (eventOffset _ _ _) as [off| |] eqn:Hoff; [|discriminate..].
  apply eventOffset_literal in Hoff as ->. simpl in H.
  rewrite index_of_nat in H.
  replace (Z.of_nat this + 1)%Z with (Z.of_nat (S this)) in H by lia.
  rewrite index_of_nat in H.
  destruct (panes st !! this) as [a|] eqn:Ha; [|discriminate].
  destruct (panes st !! S this) as [b|] eqn:Hb; [|discriminate].
  simpl in H. exists a, b. split; [done|]. split; [done|].
  destruct (pushablePanes (options st)).
  - rewrite cascade_no_iteration in H by reflexivity.
    destruct (calculateSizes _ _) as [pr'| |] eqn:Hc; [|discriminate..].
    apply calculateSizes_inv in Hc as (a' & b' & _ & _ & ->).
    simpl in H. rewrite !index_of_nat, Ha, Hb in H. simpl in H.
    rewrite snap_id in H. by injection H as <- <-.
  - simpl in H. rewrite !index_of_nat, Ha, Hb in H. simpl in H.
    rewrite snap_id in H. by injection H as <- <-.
Qed.

Lemma drag_target_total (fuel : nat) (st : State) (this : nat) (p : Point)
    (a b : Pane.t) :
  panes st !! this = Some a ->
  panes st !! S this = Some b ->
  exists pr, drag_target fuel st this (MouseEvent p) = Js.Done (pr, nan).
Proof.
  intros Ha Hb. unfold drag_target. simpl.
  rewrite sub_nan_r. rewrite index_of_nat.
  replace (Z.of_nat this + 1)%Z with (Z.of_nat (S this)) by lia.
  rewrite index_of_nat, Ha, Hb. simpl.
  destruct (pushablePanes (options st)).
  - rewrite cascade_no_iteration by reflexivity.
    unfold calculateSizes. simpl. rewrite !index_of_nat, Ha, Hb. simpl.
    rewrite !index_of_nat, Ha, Hb. simpl. rewrite snap_id. eauto.
  - simpl. rewrite !index_of_nat, Ha, Hb. simpl. rewrite snap_id. eauto.
Qed.

(** ** The scenarios are states of the program *)

Lemma Split_three_panes :
  Split false three_ids (three_config false) = Js.Done three_panes.
Proof. reflexivity. Qed.

Lemma Split_three_pushable :
  Split false three_ids (three_config true) = Js.Done three_pushable.
Proof. reflexivity. Qed.

Lemma Split_two_panes : Split false two_ids no_options = Js.Done two_panes.
Proof. reflexivity. Qed.

Lemma startDragging_first :
  startDragging three_panes 0 (mouse_at 300) = Js.Done dragging_first.
Proof. reflexivity. Qed.

Lemma startDragging_pushable_second :
  startDragging three_pushable 1 (mouse_at 600) = Js.Done pushable_dragging_second.
Proof. reflexivity. Qed.

Lemma startDragging_two :
  startDragging two_panes 0 (mouse_at 470) = Js.Done two_dragging.
Proof. reflexivity. Qed.

(** ** Dragging a gutter *)

(** Assigning [size] leaves every other property of a pane alone. *)
Lemma lookup_alter_set_size (v w : Js.value) (l : list Pane.t) (i j : nat) :
  Pane.set_size v <$> alter (Pane.set_size w) j l !! i
  = Pane.set_size v <$> l !! i.
Proof.
  destruct (decide (j = i)) as [->|Hne].
  - rewrite list_lookup_alter_eq. by destruct (l !! i).
  - by rewrite list_lookup_alter_ne.
Qed.

(** A mouse move on a gutter between two existing panes always returns. *)
Lemma drag_returns (fuel : nat) (st : State) (this : nat) (p : Point)
    (a b : Pane.t) :
  panes st !! this = Some a ->
  panes st !! S this = Some b ->
  exists st', drag fuel st this (MouseEvent p) = Js.Done st'.
Proof.
  intros Ha Hb. unfold drag. destruct (draggingGutter st); [|eauto].
  destruct (drag_target_total fuel st this p a b Ha Hb) as [pr Hpr].
  rewrite Hpr. simpl.
  destruct (drag_target_inv _ _ _ _ _ _ Hpr) as (_ & _ & _ & _ & Hpa & Hpb & _).
  destruct (adjust_total st pr (Js.Num nan) a b) as [st1 H1].
  - by rewrite Hpa, index_of_nat.
  - by rewrite Hpb, index_of_nat.
  - rewrite H1. simpl. eauto.
Qed.

(** The frame of a move event on the gutter between panes [this] and
    [this + 1]: whenever [drag] returns, every other pane is as before,
    the two panes keep every property other than [size], and gutters,
    session and listeners are untouched. *)
Lemma drag_frame (fuel : nat) (st st' : State) (this : nat) (e : Event) :
  drag fuel st this e = Js.Done st' ->
  (forall i : nat, i <> this -> i <> S this -> panes st' !! i = panes st !! i)
  /\ (forall i : nat,
        Pane.set_size Js.Undefined <$> panes st' !! i
        = Pane.set_size Js.Undefined <$> panes st !! i)
  /\ gutters st' = gutters st
  /\ draggingGutter st' = draggingGutter st
  /\ listeners st' = listeners st.
Proof.
  unfold drag. intros H.
  destruct (draggingGutter st) as [d|] eqn:Hd.
  2:{ injection H as <-. rewrite Hd. repeat split; done. }
  destruct (drag_target fuel st this e) as [[pr x]| |] eqn:Ht; [|discriminate..].
  simpl in H.
  destruct (adjust st pr (Js.Num x)) as [st1| |] eqn:Hadj; [|discriminate..].
  simpl in H. injection H as <-.
  destruct (drag_target_inv _ _ _ _ _ _ Ht) as (a & b & Ha & Hb & Hpa & Hpb & ->).
  destruct (adjust_inv _ _ _ _ Hadj) as (a' & b' & Ha' & Hb' & Hp & _ & Hg & Hdg & Hl).
  rewrite Hpa, Hpb, !Nat2Z.id in Hp. simpl in *.
  split; [|split; [|repeat split; congruence]].
  - intros i Hi1 Hi2. rewrite Hp.
    by rewrite !list_lookup_alter_ne by done.
  - intros i. by rewrite Hp, !lookup_alter_set_size.
Qed.

(** C1.  In the scenario of the specification (sizes 33.3, 33.3 and 33.4;
    panes 0 and 1 laid out 294.7 and 289.7 pixels wide from x = 0, with a
    gutter of 10 pixels between them) a move event that drags the first
    gutter to the local offset 400 does leave pane 2 at 33.4 and every
    pane as it was apart from the sizes of panes 0 and 1.  But those two
    sizes are not set in proportion [400 / pairSize]: pane 0 should get
    400 / 594.4 of the pair's 66.6 percent, about 44.8, and both sizes
    become [NaN]. *)
Theorem drag_does_not_size_the_pair_in_proportion :
  startDragging three_panes 0 (mouse_at 300) = Js.Done dragging_first
  /\ (exists pr, startDragging_pair three_panes 0 = Js.Done pr
                 /\ Pair.start pr = Js.Num 0)
  /\ getSizes dragging_first = [Js.Num 33.3; Js.Num 33.3; Js.Num 33.4]
  /\ drag 0 dragging_first 0 (mouse_at 400) = Js.Done dragged_first
  /\ getSizes dragged_first = [Js.Num nan; Js.Num nan; Js.Num 33.4]
  /\ map (Pane.set_size Js.Undefined) (panes dragged_first)
     = map (Pane.set_size Js.Undefined) (panes dragging_first)
  /\ (44.8 <? (400 - 0) / (294.7 + 10 + 289.7) * (33.3 + 33.3)) = true
  /\ ((400 - 0) / (294.7 + 10 + 289.7) * (33.3 + 33.3) <? 44.9) = true
  /\ (nan =? (400 - 0) / (294.7 + 10 + 289.7) * (33.3 + 33.3)) = false.
Proof.
  split; [reflexivity|]. split; [eexists; split; reflexivity|].
  repeat split; reflexivity.
Qed.

(** ** The size adjuster *)

(** Dividing by the [NaN] pair size makes both assigned sizes [NaN]. *)
Lemma adjust_assigns_nan (st st' : State) (this : Pair.t) (offset : Js.value) :
  adjust st this offset = Js.Done st' ->
  panes st' = alter (Pane.set_size (Js.Num nan)) (Z.to_nat (Pair.b this))
                (alter (Pane.set_size (Js.Num nan)) (Z.to_nat (Pair.a this))
                   (panes st)).
Proof.
  intros H. destruct (adjust_inv _ _ _ _ H) as (a & b & _ & _ & Hp & _).
  rewrite Hp, pairSize_nan. by autorewrite with nan.
Qed.

(** After any call of [adjust] that returns, the pair's percentage is
    [NaN], whatever it was before and whatever the offset. *)
Lemma adjust_percentage_nan (st st' : State) (this : Pair.t) (offset : Js.value) :
  adjust st this offset = Js.Done st' -> percentage st' this = Some nan.
Proof.
  intros H. pose proof (adjust_assigns_nan _ _ _ _ H) as Hp.
  destruct (adjust_inv _ _ _ _ H) as (a & b & Ha & Hb & _).
  destruct (index_Some _ _ _ Ha) as [Ha0 Ha1].
  destruct (index_Some _ _ _ Hb) as [Hb0 Hb1].
  unfold percentage, Js.index.
  destruct (Z.ltb_spec (Pair.a this) 0); [lia|].
  destruct (Z.ltb_spec (Pair.b this) 0); [lia|].
  rewrite Hp.
  destruct (decide (Z.to_nat (Pair.a this) = Z.to_nat (Pair.b this))) as [E|E].
  - rewrite <- E, !list_lookup_alter_eq, Ha1. reflexivity.
  - rewrite (list_lookup_alter_ne _ _ (Z.to_nat (Pair.b this))
               (Z.to_nat (Pair.a this))) by lia.
    rewrite !list_lookup_alter_eq, Ha1.
    rewrite (list_lookup_alter_ne _ _ (Z.to_nat (Pair.a this))
               (Z.to_nat (Pair.b this))), Hb1 by lia. reflexivity.
Qed.

(** C2.  [adjust] does not keep [a.size + b.size]: on two panes of 50
    percent each and an offset of 400 pixels it returns with both sizes
    [NaN], so the sum goes from 100 to [NaN], which is within no
    tolerance of 100.  The call that a move event makes through [drag]
    ends the same way. *)
Theorem adjust_loses_the_pair_percentage :
  percentage two_panes (Pair.literal 0 1 (Some 0%Z)) = Some 100
  /\ (exists st',
        adjust two_panes (Pair.literal 0 1 (Some 0%Z)) (Js.Num 400) = Js.Done st'
        /\ getSizes st' = [Js.Num nan; Js.Num nan]
        /\ percentage st' (Pair.literal 0 1 (Some 0%Z)) = Some nan)
  /\ (exists st',
        drag 0 two_dragging 0 (mouse_at 420) = Js.Done st'
        /\ getSizes st' = [Js.Num nan; Js.Num nan]
        /\ percentage st' (Pair.literal 0 1 (Some 0%Z)) = Some nan)
  /\ forall tolerance : float, (abs (nan - 100) <=? tolerance) = false.
Proof.
  split; [reflexivity|].
  split; [eexists; repeat split; reflexivity|].
  split; [eexists; repeat split; reflexivity|].
  intros tolerance. change (abs (nan - 100)) with nan. apply leb_nan_l.
Qed.

(** ** The geometry cache *)

(** The cached size is [NaN] as soon as one gutter lies between the two
    panes; the cached start is the leading edge of pane [a]. *)
Lemma calculateSizes_size_nan (st : State) (this pr : Pair.t) :
  Js.slice (gutters st) (Pair.a this) (Pair.b this) <> [] ->
  calculateSizes st this = Js.Done pr ->
  Pair.size pr = Js.Num nan.
Proof.
  intros Hs H. apply calculateSizes_inv in H as (a & b & _ & _ & ->). simpl.
  by rewrite (widthBetween_nan _ _ _ Hs), add_nan_r, add_nan_l.
Qed.

Lemma calculateSizes_start (st : State) (this pr : Pair.t) (a : Pane.t) :
  Js.index (panes st) (Pair.a this) = Some a ->
  calculateSizes st this = Js.Done pr ->
  Pair.start pr = Js.Num (position (options st) (getBoundingClientRect (Pane.el a))).
Proof.
  intros Ha H. apply calculateSizes_inv in H as (a' & b & Ha' & _ & ->).
  simpl. congruence.
Qed.

(** C4.  For two panes 445 pixels wide from x = 20 with a gutter of 10
    pixels between them, [calculateSizes] caches the start 20, the
    leading edge of pane [a], but the size [NaN], not 445 + 10 + 445 =
    900: the gutters between the panes contribute [NaN]. *)
Theorem calculateSizes_caches_NaN_size :
  calculateSizes two_panes (Pair.literal 0 1 (Some 0%Z))
  = Js.Done (Pair.mk 0 1 (Some 0%Z) (Js.Num nan) (Js.Num 20))
  /\ widthBetween two_panes 0 1 = nan
  /\ gutterSize (options two_panes) = 10
  /\ dimension (options two_panes) (getBoundingClientRect (mkElement 0 (Rect.mk 445 400 20 0)))
     + gutterSize (options two_panes)
     + dimension (options two_panes) (getBoundingClientRect (mkElement 1 (Rect.mk 445 400 475 0)))
     = 900
  /\ (nan =? 900) = false.
Proof. repeat split; reflexivity. Qed.

(** ** The drag pipeline *)

(** C3.  The offset that a move event feeds to the pipeline is not the
    pointer coordinate minus the start cached at the pointer-down.  The
    pointer-down on the gutter of the two panes caches the start 20 in
    its own pair object; the move event at x = 420 builds a new pair
    object, which has no start, and the offset is [NaN], not 420 - 20 =
    400.  The same holds for a touch event. *)
Theorem drag_offset_is_not_relative_to_cached_start :
  (exists pr, startDragging_pair two_panes 0 = Js.Done pr
              /\ Pair.start pr = Js.Num 20)
  /\ startDragging two_panes 0 (mouse_at 470) = Js.Done two_dragging
  /\ eventOffset (options two_dragging) (mouse_at 420)
       (Pair.literal 0 1 (Some 0%Z)) = Js.Done nan
  /\ eventOffset (options two_dragging) (TouchEvent [mkPoint 420 200])
       (Pair.literal 0 1 (Some 0%Z)) = Js.Done nan
  /\ drag_target 0 two_dragging 0 (mouse_at 420)
     = Js.Done (Pair.literal 0 1 (Some 0%Z), nan)
  /\ 420 - 20 = 400
  /\ (nan =? 400) = false.
Proof.
  split; [eexists; split; reflexivity|]. repeat split; reflexivity.
Qed.



Lemma bind_fuel {A B} (m : Js.outcome A) (k : A -> Js.outcome B) :
  m <> Js.OutOfFuel -> (forall x, k x <> Js.OutOfFuel) ->
  (x ← m; k x) <> Js.OutOfFuel.
Proof. destruct m; simpl; auto. Qed.

Lemma deref_fuel {A} (o : option A) : Js.deref o <> Js.OutOfFuel.
Proof. by destruct o. Qed.

Lemma adjust_fuel (st : State) (this : Pair.t) (offset : Js.value) :
  adjust st this offset <> Js.OutOfFuel.
Proof.
  unfold adjust.
  repeat (apply bind_fuel; [apply deref_fuel|intros ?]). discriminate.
Qed.

Lemma calculateSizes_fuel (st : State) (this : Pair.t) :
  calculateSizes st this <> Js.OutOfFuel.
Proof.
  unfold calculateSizes.
  repeat (apply bind_fuel; [apply deref_fuel|intros ?]). discriminate.
Qed.

(** The pushable block never widens the pair and never runs out of fuel:
    [drag] returns or throws for any amount of fuel. *)
Lemma drag_never_out_of_fuel (fuel : nat) (st : State) (this : nat) (e : Event) :
  drag fuel st this e <> Js.OutOfFuel.
Proof.
  unfold drag. destruct (draggingGutter st); [|discriminate].
  apply bind_fuel; [|intros [pr x]; apply bind_fuel;
                      [apply adjust_fuel|discriminate]].
  unfold drag_target. apply bind_fuel.
  { destruct e as [p|[|t ts]]; discriminate. }
  intros off.
  apply bind_fuel; [apply deref_fuel|intros a].
  apply bind_fuel; [apply deref_fuel|intros b].
  apply bind_fuel.
  - destruct (pushablePanes (options st)); [|discriminate].
    rewrite cascade_no_iteration by reflexivity.
    apply bind_fuel; [apply calculateSizes_fuel|discriminate].
  - intros [pr x]. repeat (apply bind_fuel; [apply deref_fuel|intros ?]).
    discriminate.
Qed.

(** The amount of fuel is irrelevant: the loops never iterate. *)
Lemma drag_target_fuel_irrelevant (fuel fuel' : nat) (st : State) (this : nat)
    (e : Event) :
  drag_target fuel st this e = drag_target fuel' st this e.
Proof.
  unfold drag_target.
  destruct (eventOffset _ _ _) as [off| |]; simpl; [|reflexivity..].
  destruct (Js.deref _) as [a| |]; simpl; [|reflexivity..].
  destruct (Js.deref _) as [b| |]; simpl; [|reflexivity..].
  destruct (pushablePanes (options st)); [|reflexivity].
  by rewrite !cascade_no_iteration.
Qed.

Lemma drag_fuel_irrelevant (fuel fuel' : nat) (st : State) (this : nat)
    (e : Event) :
  drag fuel st this e = drag fuel' st this e.
Proof.
  unfold drag. by rewrite (drag_target_fuel_irrelevant fuel fuel').
Qed.

(** C6.  With pushable panes, a move event that would leave pane 1 (not
    the first pane, minimum 100) five pixels wide does not move the left
    boundary of the pair to pane 0: [drag] adjusts the pair of panes 1
    and 2, for any amount of fuel, and their sizes become [NaN]. *)
Theorem pushable_drag_does_not_cascade (fuel : nat) :
  pushablePanes (options pushable_dragging_second) = true
  /\ startDragging three_pushable 1 (mouse_at 600)
     = Js.Done pushable_dragging_second
  /\ (exists a, panes pushable_dragging_second !! 1%nat = Some a
                /\ Pane.isFirst a = false
                /\ Pane.minSize a = Js.Num 100
                /\ Rect.left (getBoundingClientRect (Pane.el a)) = 304.7)
  /\ (exists pr, drag_target fuel pushable_dragging_second 1 (mouse_at 310)
                 = Js.Done (pr, nan)
                 /\ Pair.a pr = 1%Z /\ Pair.b pr = 2%Z)
  /\ exists st', drag fuel pushable_dragging_second 1 (mouse_at 310) = Js.Done st'
                 /\ getSizes st' = [Js.Num 33.3; Js.Num nan; Js.Num nan].
Proof.
  split; [reflexivity|]. split; [reflexivity|].
  split; [eexists; repeat split; reflexivity|].
  rewrite (drag_fuel_irrelevant fuel 0), (drag_target_fuel_irrelevant fuel 0).
  split.
  - eexists. split; [reflexivity|]. split; reflexivity.
  - eexists. split; reflexivity.
Qed.

(** ** Collapsing a pane *)

(** Collapsing the last pane throws: its pair names a pane past the end. *)
Lemma collapse_last_throws (st : State) :
  panes st <> [] ->
  collapse st (Z.of_nat (length (panes st)) - 1) = Js.Threw.
Proof.
  intros Hne. unfold collapse, calculateSizes. simpl.
  assert (0 < length (panes st))%nat by (destruct (panes st); [done|simpl; lia]).
  destruct (Z.eqb_spec (Z.of_nat (length (panes st)) - 1)
              (Z.of_nat (length (panes st)))); [lia|].
  replace (Z.of_nat (length (panes st)) - 1 + 1)%Z
    with (Z.of_nat (length (panes st))) by lia.
  rewrite (index_of_nat (panes st) (length (panes st))).
  rewrite (lookup_ge_None_2 (panes st) (length (panes st))) by lia.
  destruct (Js.index _ _); reflexivity.
Qed.

(** Whenever [collapse] returns it has made the percentage of its pair
    [NaN]. *)
Lemma collapse_percentage_nan (st st' : State) (i : Z) :
  isIE8 (options st) = false ->
  collapse st i = Js.Done st' ->
  exists pr, calculateSizes st
               (Pair.literal
                  (if (i =? Z.of_nat (length (panes st)))%Z then i - 1 else i)%Z
                  (if (i =? Z.of_nat (length (panes st)))%Z then i else i + 1)%Z
                  None) = Js.Done pr
             /\ percentage st' pr = Some nan.
Proof.
  intros Hie H. unfold collapse in H.
  destruct (calculateSizes _ _) as [pr| |] eqn:Hc; [|discriminate..].
  simpl in H. rewrite Hie in H. simpl in H.
  exists pr. split; [done|]. by eapply adjust_percentage_nan.
Qed.

(** C7.  [collapse] does not bring a pane to its minimum.  On two panes
    of 50 percent each, [collapse(0)] passes no offset to [adjust] and
    leaves both sizes [NaN], so the pair sum 100 is lost; [collapse(1)],
    for the last valid index, throws. *)
Theorem collapse_yields_NaN_or_throws :
  percentage two_panes (Pair.literal 0 1 None) = Some 100
  /\ (exists st',
        collapse two_panes 0 = Js.Done st'
        /\ getSizes st' = [Js.Num nan; Js.Num nan]
        /\ percentage st' (Pair.literal 0 1 None) = Some nan)
  /\ length (panes two_panes) = 2%nat
  /\ collapse two_panes 1 = Js.Threw.
Proof.
  split; [reflexivity|]. split; [|split; reflexivity].
  eexists. repeat split; reflexivity.
Qed.

(** ** The drag session *)

Lemma registered_add (t : EventType) (f : Fn) (ls : list (EventType * Fn)) :
  existsb (same_listener t f) (addEventListener t f ls) = true.
Proof.
  unfold addEventListener.
  destruct (existsb (same_listener t f) ls) eqn:E; [done|].
  rewrite existsb_app. simpl. unfold same_listener at 2. simpl.
  rewrite bool_decide_eq_true_2 by done. rewrite Nat.eqb_refl.
  by rewrite orb_true_r.
Qed.

Lemma registered_add_mono (t t' : EventType) (f f' : Fn)
    (ls : list (EventType * Fn)) :
  existsb (same_listener t f) ls = true ->
  existsb (same_listener t f) (addEventListener t' f' ls) = true.
Proof.
  intros H. unfold addEventListener.
  destruct (existsb (same_listener t' f') ls); [done|].
  by rewrite existsb_app, H.
Qed.

(** C8, as the code has it.  The guard of [startDragging] guards the
    [onDragStart] callback only.  A pointer-down on a gutter while the
    guard variable already holds one does not call [onDragStart] again,
    but it is not ignored: the variable, which holds one gutter at a
    time, is rebound to the new gutter, which gets new [move] and [stop]
    functions, registered on [window] for the move and stop events. *)
Theorem startDragging_rebinds_an_active_session (st st' : State) (this : nat)
    (e : Event) :
  draggingGutter st <> None ->
  startDragging st this e = Js.Done st' ->
  draggingGutter st' = Some this
  /\ calls is_onDragStart st' = calls is_onDragStart st
  /\ exists g,
       gutters st' !! this = Some g
       /\ Gutter.move g = Gutter.Bound (mkFn (next_fn st) (drag_bound this))
       /\ Gutter.stop g = Gutter.Bound (mkFn (S (next_fn st)) (stopDragging_bound this))
       /\ registered mousemove (mkFn (next_fn st) (drag_bound this)) st' = true
       /\ registered touchmove (mkFn (next_fn st) (drag_bound this)) st' = true
       /\ registered mouseup (mkFn (S (next_fn st)) (stopDragging_bound this)) st' = true
       /\ registered touchend (mkFn (S (next_fn st)) (stopDragging_bound this)) st' = true
       /\ registered touchcancel (mkFn (S (next_fn st)) (stopDragging_bound this)) st' = true.
Proof.
  intros Hd H. unfold startDragging in H.
  destruct (panes st !! this) as [a|]; [|discriminate].
  destruct (panes st !! (this + 1)%nat) as [b|]; [|discriminate].
  destruct (gutters st !! this) as [g|] eqn:Hg; [|discriminate].
  simpl in H.
  destruct (draggingGutter st) as [d|]; [|done].
  destruct (startDragging_pair _ _) as [pr| |]; [|discriminate..].
  simpl in H. injection H as <-.
  split; [reflexivity|]. split.
  { unfold calls. simpl. rewrite <- !app_assoc, List.filter_app. simpl.
    by rewrite length_app, Nat.add_0_r. }
  eexists. split.
  { simpl. apply list_lookup_insert_eq. by eapply lookup_lt_Some. }
  simpl. unfold registered. simpl.
  repeat split;
    repeat first [apply registered_add | apply registered_add_mono].
Qed.

Lemma startDragging_rebinds_an_active_session_witness :
  draggingGutter dragging_first <> None
  /\ startDragging dragging_first 1 (mouse_at 600) = Js.Done rebound_to_second
  /\ draggingGutter rebound_to_second = Some 1%nat
  /\ calls is_onDragStart rebound_to_second = calls is_onDragStart dragging_first.
Proof.
  assert (Hd : draggingGutter dragging_first <> None) by discriminate.
  assert (H : startDragging dragging_first 1 (mouse_at 600)
              = Js.Done rebound_to_second) by reflexivity.
  destruct (startDragging_rebinds_an_active_session dragging_first
              rebound_to_second 1 (mouse_at 600) Hd H) as (H1 & H2 & _).
  auto.
Defined.

(** C8, as the spec states it, fails: with a session active on the first
    gutter, a pointer-down on the second gutter is not ignored.  The
    guard variable moves from the first gutter to the second one, which
    gets its own listeners beside those of the first. *)
Lemma second_pointer_down_is_not_ignored :
  startDragging three_panes 0 (mouse_at 300) = Js.Done dragging_first
  /\ draggingGutter dragging_first = Some 0%nat
  /\ startDragging dragging_first 1 (mouse_at 600) = Js.Done rebound_to_second
  /\ draggingGutter rebound_to_second = Some 1%nat
  /\ draggingGutter rebound_to_second <> draggingGutter dragging_first
  /\ length (listeners dragging_first) = 5%nat
  /\ length (listeners rebound_to_second) = 10%nat
  /\ registered mousemove (mkFn 0 (drag_bound 0)) rebound_to_second = true
  /\ registered mousemove (mkFn 2 (drag_bound 1)) rebound_to_second = true.
Proof. repeat split; try reflexivity. discriminate. Qed.

(** [stopDragging] never assigns the guard variable. *)
Lemma stopDragging_keeps_draggingGutter (st st' : State) (this : nat) :
  stopDragging st this = Js.Done st' -> draggingGutter st' = draggingGutter st.
Proof.
  unfold stopDragging. intros H.
  destruct (gutters st !! this) as [g|]; [|discriminate].
  destruct (panes st !! this) as [a|]; [|discriminate].
  destruct (panes st !! (this + 1)%nat) as [b|]; [|discriminate].
  simpl in H. injection H as <-.
  destruct (draggingGutter st) eqn:E; simpl; by rewrite ?E.
Qed.

(** Once a session has started the guard variable is never [null] again:
    every later [stopDragging] calls [onDragEnd]. *)
Lemma stopDragging_calls_onDragEnd (st st' : State) (this : nat) :
  draggingGutter st <> None ->
  stopDragging st this = Js.Done st' ->
  calls is_onDragEnd st' = S (calls is_onDragEnd st).
Proof.
  unfold stopDragging. intros Hd H.
  destruct (gutters st !! this) as [g|]; [|discriminate].
  destruct (panes st !! this) as [a|]; [|discriminate].
  destruct (panes st !! (this + 1)%nat) as [b|]; [|discriminate].
  simpl in H. injection H as <-.
  destruct (draggingGutter st); [|done].
  unfold calls. simpl. rewrite <- app_assoc, List.filter_app, length_app.
  simpl. lia.
Qed.

(** C9.  A stop event detaches the listeners and calls [onDragEnd], but
    it does not clear the session reference: after the pointer-down and
    the stop on the gutter of the two panes, no listener is left on
    [window] and [onDragEnd] has been called once, yet the guard variable
    still holds the gutter.  So a stop handler run again calls
    [onDragEnd] a second time for the same session, and the next
    pointer-down does not call [onDragStart]. *)
Theorem stopDragging_leaves_the_session_reference :
  draggingGutter two_panes = None
  /\ startDragging two_panes 0 (mouse_at 470) = Js.Done two_dragging
  /\ draggingGutter two_dragging = Some 0%nat
  /\ stopDragging two_dragging 0 = Js.Done two_stopped
  /\ listeners two_stopped = []
  /\ calls is_onDragEnd two_stopped = 1%nat
  /\ draggingGutter two_stopped = Some 0%nat
  /\ (exists st', stopDragging two_stopped 0 = Js.Done st'
                  /\ calls is_onDragEnd st' = 2%nat)
  /\ (exists st', startDragging two_stopped 0 (mouse_at 470) = Js.Done st'
                  /\ calls is_onDragStart two_stopped = 1%nat
                  /\ calls is_onDragStart st' = 1%nat).
Proof.
  repeat split; try reflexivity; eexists; repeat split; reflexivity.
Qed.

(** ** Setting and reading the sizes *)

Lemma setSizes_from_spec (s : list Js.value) :
  forall (i : nat) (st : State),
    (i + length s)%nat = length (panes st) ->
    exists st',
      setSizes_from i s st = Js.Done st'
      /\ length (panes st') = length (panes st)
      /\ (forall k : nat, (k < i)%nat -> panes st' !! k = panes st !! k)
      /\ (forall (k : nat) (v : Js.value),
            s !! k = Some v -> Pane.size <$> panes st' !! (i + k)%nat = Some v)
      /\ (forall k : nat,
            Pane.set_size Js.Undefined <$> panes st' !! k
            = Pane.set_size Js.Undefined <$> panes st !! k).
Proof.
  induction s as [|v s IH]; intros i st Hlen; simpl in *.
  - exists st. repeat split; done.
  - destruct (lookup_lt_is_Some_2 (panes st) i ltac:(lia)) as [p Hp].
    rewrite Hp. simpl. rewrite list_lookup_alter_eq, Hp. simpl.
    set (st1 := emit _ _).
    destruct (IH (S i) st1) as (st' & Hrun & Hl & Hlow & Hnew & Hrest).
    { subst st1. simpl. rewrite length_alter. lia. }
    exists st'. subst st1. simpl in *. rewrite length_alter in Hl.
    split; [done|]. split; [done|]. split; [|split].
    + intros k Hk. rewrite Hlow by lia. by rewrite list_lookup_alter_ne by lia.
    + intros [|k] w Hk; simpl in Hk.
      * injection Hk as ->. rewrite Nat.add_0_r, Hlow by lia.
        by rewrite list_lookup_alter_eq, Hp.
      * replace (i + S k)%nat with (S i + k)%nat by lia. by apply Hnew.
    + intros k. by rewrite Hrest, lookup_alter_set_size.
Qed.

(** C10.  [setSizes] with one size per pane returns, and [getSizes] then
    returns the very list given: no size is checked, clamped or
    rescaled.  Every other property of every pane, its minimum size
    included, is as before. *)
Theorem setSizes_then_getSizes (st : State) (s : list Js.value) :
  length s = length (panes st) ->
  exists st',
    setSizes st s = Js.Done st'
    /\ getSizes st' = s
    /\ map Pane.minSize (panes st') = map Pane.minSize (panes st).
Proof.
  intros Hlen.
  destruct (setSizes_from_spec s 0 st ltac:(simpl; lia))
    as (st' & Hrun & Hl & _ & Hnew & Hrest).
  exists st'. split; [exact Hrun|]. split.
  - apply list_eq. intros k. unfold getSizes. rewrite list_lookup_fmap.
    destruct (s !! k) as [v|] eqn:Hk.
    + by apply (Hnew k v).
    + apply lookup_ge_None_1 in Hk.
      by rewrite (lookup_ge_None_2 (panes st') k) by lia.
  - apply list_eq. intros k. rewrite !list_lookup_fmap.
    specialize (Hrest k).
    destruct (panes st' !! k) as [[]|], (panes st !! k) as [[]|];
      unfold Pane.set_size in Hrest; simpl in *; congruence.
Qed.

Lemma setSizes_then_getSizes_witness :
  length [Js.Num 50; Js.Num 60; Js.Num 70] = length (panes three_panes)
  /\ (exists st',
        setSizes three_panes [Js.Num 50; Js.Num 60; Js.Num 70] = Js.Done st'
        /\ getSizes st' = [Js.Num 50; Js.Num 60; Js.Num 70]
        /\ map Pane.minSize (panes st') = map Pane.minSize (panes three_panes))
  /\ 50 + 60 + 70 = 180.
Proof.
  split; [reflexivity|]. split; [|reflexivity].
  apply (setSizes_then_getSizes three_panes [Js.Num 50; Js.Num 60; Js.Num 70]).
  reflexivity.
Defined.

(** ** Construction *)

Lemma ltb_irrefl (x : float) : (x <? x) = false.
Proof.
  rewrite FloatAxioms.ltb_spec. unfold SFltb, SFcompare.
  destruct (Prim2SF x) as [[]|[]| |[] m e]; try reflexivity;
    rewrite Z.compare_refl, Pos.compare_cont_refl; reflexivity.
Qed.

Lemma make_pane_spec (o : Options) (sizes minSizes : list Js.value)
    (count i : nat) (id : Element) (st : State) :
  exists p,
    panes (make_pane o sizes minSizes count i id st) = panes st ++ [p]
    /\ built o sizes minSizes count i id p
    /\ length (gutters (make_pane o sizes minSizes count i id st))
       = (length (gutters st)
          + (if (0 <? i)%nat && negb (isIE8 o) then 1 else 0))%nat
    /\ options (make_pane o sizes minSizes count i id st) = options st
    /\ draggingGutter (make_pane o sizes minSizes count i id st) = draggingGutter st
    /\ listeners (make_pane o sizes minSizes count i id st) = listeners st.
Proof.
  unfold make_pane.
  destruct ((0 <? i)%nat && negb (isIE8 o)); simpl;
    destruct (dimension o (getBoundingClientRect id) <? Js.ToNumber (at_index minSizes i))
      eqn:Hlt;
    eexists; (split; [reflexivity|]); unfold built; simpl;
    rewrite ?length_app, ?ltb_irrefl, ?Hlt; simpl;
    repeat split; auto; lia.
Qed.

Lemma make_panes_spec (o : Options) (sizes minSizes : list Js.value) (count : nat)
    (ids : list Element) :
  forall (i : nat) (st : State),
    length (panes (make_panes o sizes minSizes count i ids st))
    = (length (panes st) + length ids)%nat
    /\ (forall k : nat, (k < length (panes st))%nat ->
          panes (make_panes o sizes minSizes count i ids st) !! k = panes st !! k)
    /\ (forall (k : nat) (id : Element), ids !! k = Some id ->
          exists p,
            panes (make_panes o sizes minSizes count i ids st)
              !! (length (panes st) + k)%nat = Some p
            /\ built o sizes minSizes count (i + k) id p)
    /\ length (gutters (make_panes o sizes minSizes count i ids st))
       = (length (gutters st)
          + (if isIE8 o then 0 else length ids - (if Nat.eqb i 0 then 1 else 0)))%nat
    /\ options (make_panes o sizes minSizes count i ids st) = options st
    /\ draggingGutter (make_panes o sizes minSizes count i ids st) = draggingGutter st
    /\ listeners (make_panes o sizes minSizes count i ids st) = listeners st.
Proof.
  induction ids as [|id ids IH]; intros i st; simpl.
  - repeat split; try done; try lia.
    destruct (isIE8 o), (Nat.eqb i 0); lia.
  - destruct (make_pane_spec o sizes minSizes count i id st)
      as (p & Hp & Hb & Hg & Ho & Hd & Hl).
    destruct (IH (S i) (make_pane o sizes minSizes count i id st))
      as (Hlen & Hlow & Hnew & Hgs & Hos & Hds & Hls).
    rewrite Hp, length_app in Hlen, Hlow, Hnew. simpl in Hlen, Hlow, Hnew.
    split; [lia|]. split; [|split; [|split; [|repeat split; congruence]]].
    + intros k Hk. rewrite Hlow by lia. apply lookup_app_l. lia.
    + intros [|k] id' Hid; simpl in Hid.
      * injection Hid as <-. exists p. rewrite !Nat.add_0_r. split; [|done].
        rewrite Hlow by lia. by apply list_lookup_middle.
      * destruct (Hnew k id' Hid) as (p' & Hp' & Hb').
        exists p'. split.
        -- rewrite <- Hp'. f_equal. lia.
        -- by replace (i + S k)%nat with (S i + k)%nat by lia.
    + rewrite Hgs, Hg. simpl.
      destruct (isIE8 o); simpl; [destruct (0 <? i)%nat; simpl; lia|].
      destruct i; simpl; lia.
Qed.

Lemma Split_inv (ie8 : bool) (ids : list Element) (c : Config.t) (st : State) :
  Split ie8 ids c = Js.Done st ->
  ids <> []
  /\ exists o sizes minSizes,
       o = mkOptions (getOption (Config.gutterSize c) 10)
             (getOption (Config.snapOffset c) 30)
             (getOption (Config.pushablePanes c) false)
             (getOption (Config.direction c) horizontal) ie8
       /\ sizes = getOption (Config.sizes c)
                    (map (fun _ => Js.Num (100 / float_of_nat (length ids))) ids)
       /\ minSizes = match getOption (Config.minSize c) (Config.scalar (Js.Num 100)) with
                     | Config.array l => l
                     | Config.scalar v => map (fun _ => v) ids
                     end
       /\ st = make_panes o sizes minSizes (length ids) 0 ids
                 (mkState o [] [] None [] 0 []).
Proof.
  unfold Split. destruct ids as [|id ids]; [discriminate|].
  simpl. intros [= <-]. split; [done|]. eauto 10.
Qed.

Lemma at_index_const (v : Js.value) (ids : list Element) (i : nat) :
  at_index (map (fun _ => v) ids) i
  = if (i <? length ids)%nat then v else Js.Undefined.
Proof.
  unfold at_index. rewrite list_lookup_fmap.
  destruct (Nat.ltb_spec i (length ids)) as [H|H].
  - destruct (lookup_lt_is_Some_2 ids i H) as [x ->]. reflexivity.
  - by rewrite (lookup_ge_None_2 ids i H).
Qed.

(** The panes of a new instance, one by one. *)
Lemma Split_pane (ie8 : bool) (ids : list Element) (c : Config.t) (st : State)
    (i : nat) (id : Element) :
  Split ie8 ids c = Js.Done st ->
  ids !! i = Some id ->
  exists p,
    panes st !! i = Some p
    /\ Pane.el p = id
    /\ Pane.size p = at_index (getOption (Config.sizes c)
                                 (map (fun _ => Js.Num (100 / float_of_nat (length ids))) ids)) i
    /\ Pane.isFirst p = Nat.eqb i 0
    /\ Pane.isLast p = Nat.eqb (S i) (length ids)
    /\ Pane.isCollapsed p = false
    /\ (dimension (options st) (getBoundingClientRect id)
        <? Js.ToNumber (Pane.minSize p)) = false
    /\ Pane.minSize p
       = if dimension (options st) (getBoundingClientRect id)
            <? Js.ToNumber (configured_minSize c (length ids) i)
         then Js.Num (dimension (options st) (getBoundingClientRect id))
         else configured_minSize c (length ids) i.
Proof.
  intros H Hid.
  destruct (Split_inv _ _ _ _ H) as (_ & o & sizes & minSizes & Ho & Hs & Hm & ->).
  destruct (make_panes_spec o sizes minSizes (length ids) ids 0
              (mkState o [] [] None [] 0 []))
    as (_ & _ & Hnew & _ & Hopt & _).
  destruct (Hnew i id Hid) as (p & Hp & He & Hsz & Hf & Hl & Hc & Hlt & Hmin).
  assert (Hlast : Pane.isLast p = Nat.eqb (S i) (length ids)).
  { rewrite Hl. change (0 + i)%nat with i.
    destruct (Nat.eqb_spec (S i) (length ids));
      [apply Z.eqb_eq|apply Z.eqb_neq]; lia. }
  simpl in *. exists p. rewrite Hopt. simpl.
  split; [done|]. split; [done|]. split; [by rewrite Hsz, Hs|].
  split; [done|]. split; [done|].
  split; [done|]. split; [done|].
  assert (Hcfg : at_index minSizes i = configured_minSize c (length ids) i).
  { rewrite Hm. unfold configured_minSize.
    destruct (getOption (Config.minSize c) (Config.scalar (Js.Num 100))); [|done].
    apply at_index_const. }
  by rewrite Hmin, Hcfg.
Qed.

(** The state that [Split] returns. *)
Lemma Split_state (ie8 : bool) (ids : list Element) (c : Config.t) (st : State) :
  Split ie8 ids c = Js.Done st ->
  map Pane.el (panes st) = ids
  /\ length (panes st) = length ids
  /\ length (gutters st) = (if ie8 then 0 else length ids - 1)%nat
  /\ draggingGutter st = None
  /\ listeners st = []
  /\ isIE8 (options st) = ie8.
Proof.
  intros Hrun.
  destruct (Split_inv _ _ _ _ Hrun) as (_ & o & sizes & minSizes & Ho & Hs & Hm & Hst).
  destruct (make_panes_spec o sizes minSizes (length ids) ids 0
              (mkState o [] [] None [] 0 []))
    as (Hlen & _ & _ & Hg & Hopt & Hd & Hl).
  rewrite <- Hst in *. simpl in *.
  split; [|split; [done|split; [|split; [done|split; [done|]]]]].
  - apply list_eq. intros k. rewrite list_lookup_fmap.
    destruct (ids !! k) as [id|] eqn:Hk.
    + destruct (Split_pane _ _ _ _ _ _ Hrun Hk) as (p & -> & He & _).
      simpl. by rewrite He.
    + apply lookup_ge_None_1 in Hk.
      by rewrite (lookup_ge_None_2 (panes st) k) by lia.
  - rewrite Hg, Ho. simpl. destruct ie8; lia.
  - by rewrite Hopt, Ho.
Qed.

(** The shape of a new instance: [Split] throws on an empty list of ids;
    otherwise it returns with one pane per id, in order, one gutter per
    pane after the first (none under IE8), no session and no listener on
    [window]. *)
Theorem Split_shape (ie8 : bool) (ids : list Element) (c : Config.t) :
  (ids = [] -> Split ie8 ids c = Js.Threw)
  /\ (ids <> [] ->
      exists st,
        Split ie8 ids c = Js.Done st
        /\ map Pane.el (panes st) = ids
        /\ length (gutters st) = (if ie8 then 0 else length ids - 1)%nat
        /\ draggingGutter st = None
        /\ listeners st = []
        /\ isIE8 (options st) = ie8).
Proof.
  split; [by intros ->|]. intros Hne.
  assert (Hrun : exists st, Split ie8 ids c = Js.Done st)
    by (destruct ids; [done|]; unfold Split; simpl; eauto).
  destruct Hrun as [st Hrun]. exists st. split; [done|].
  destruct (Split_state _ _ _ _ Hrun) as (Hel & _ & Hg & Hd & Hl & Hie).
  auto.
Qed.

Lemma Split_shape_witness :
  Split false [] no_options = Js.Threw
  /\ exists st,
       Split false three_ids (three_config false) = Js.Done st
       /\ map Pane.el (panes st) = three_ids
       /\ length (gutters st) = 2%nat.
Proof.
  destruct (Split_shape false [] no_options) as (H0 & _).
  destruct (Split_shape false three_ids (three_config false)) as (_ & H3).
  destruct (H3 ltac:(discriminate)) as (st & Hrun & Hel & Hg & _).
  split; [exact (H0 eq_refl)|]. exists st. auto.
Defined.

(** The sizes of a new instance are the [sizes] option as given, entry by
    entry and unchecked ([undefined] where the option has no entry);
    without the option every pane gets [100 / count]. *)
Theorem Split_sizes (ie8 : bool) (ids : list Element) (c : Config.t) (st : State) :
  Split ie8 ids c = Js.Done st ->
  (Config.sizes c = None ->
   getSizes st = replicate (length ids) (Js.Num (100 / float_of_nat (length ids))))
  /\ (forall l, Config.sizes c = Some l ->
        getSizes st = map (at_index l) (seq 0 (length ids)))
  /\ (forall l, Config.sizes c = Some l -> length l = length ids -> getSizes st = l).
Proof.
  intros H.
  assert (Hlen : length (panes st) = length ids).
  { by destruct (Split_state _ _ _ _ H) as (_ & Hlen & _). }
  assert (Hat : forall k, getSizes st !! k
                 = if (k <? length ids)%nat
                   then Some (at_index (getOption (Config.sizes c)
                          (map (fun _ => Js.Num (100 / float_of_nat (length ids))) ids)) k)
                   else None).
  { intros k. unfold getSizes. rewrite list_lookup_fmap.
    destruct (Nat.ltb_spec k (length ids)) as [Hk|Hk].
    - destruct (lookup_lt_is_Some_2 ids k Hk) as [id Hid].
      destruct (Split_pane _ _ _ _ _ _ H Hid) as (p & -> & _ & Hsz & _).
      simpl. by rewrite Hsz.
    - by rewrite (lookup_ge_None_2 (panes st) k) by lia. }
  assert (Hsome : forall l, Config.sizes c = Some l ->
                    getSizes st = map (at_index l) (seq 0 (length ids))).
  { intros l Hl. apply list_eq. intros k. rewrite Hat, Hl. simpl.
    rewrite list_lookup_fmap.
    destruct (Nat.ltb_spec k (length ids)) as [Hk|Hk].
    - by rewrite lookup_seq_lt.
    - by rewrite lookup_seq_ge. }
  split; [|split; [done|]].
  - intros Hnone. apply list_eq. intros k. rewrite Hat, Hnone. simpl.
    rewrite at_index_const.
    destruct (Nat.ltb_spec k (length ids)) as [Hk|Hk].
    + by rewrite lookup_replicate_2.
    + symmetry. apply lookup_ge_None_2. by rewrite length_replicate.
  - intros l Hl Hll. rewrite (Hsome l Hl). apply list_eq. intros k.
    rewrite list_lookup_fmap. unfold at_index.
    destruct (Nat.ltb_spec k (length ids)) as [Hk|Hk].
    + rewrite lookup_seq_lt by done. simpl.
      destruct (lookup_lt_is_Some_2 l k ltac:(lia)) as [v ->]. reflexivity.
    + rewrite lookup_seq_ge by done. simpl. symmetry.
      apply lookup_ge_None_2. lia.
Qed.

Lemma Split_sizes_witness :
  Split false two_ids no_options = Js.Done two_panes
  /\ getSizes two_panes = [Js.Num 50; Js.Num 50]
  /\ Split false three_ids (three_config false) = Js.Done three_panes
  /\ getSizes three_panes = [Js.Num 33.3; Js.Num 33.3; Js.Num 33.4].
Proof.
  pose proof (Split_sizes false two_ids no_options two_panes eq_refl) as (H2 & _).
  pose proof (Split_sizes false three_ids (three_config false) three_panes eq_refl)
    as (_ & _ & H3).
  split; [reflexivity|]. split; [exact (H2 eq_refl)|].
  split; [reflexivity|]. exact (H3 _ eq_refl eq_refl).
Defined.

(** Exactly the first pane of a new instance is marked first and exactly
    the last one is marked last; none is marked collapsed. *)
Theorem Split_flags (ie8 : bool) (ids : list Element) (c : Config.t) (st : State)
    (i : nat) (p : Pane.t) :
  Split ie8 ids c = Js.Done st ->
  panes st !! i = Some p ->
  Pane.isFirst p = Nat.eqb i 0
  /\ Pane.isLast p = Nat.eqb (S i) (length (panes st))
  /\ Pane.isCollapsed p = false.
Proof.
  intros H Hp.
  destruct (Split_state _ _ _ _ H) as (Hel & Hlen & _).
  destruct (lookup_lt_is_Some_2 ids i) as [id Hid].
  { rewrite <- Hlen. by eapply lookup_lt_Some. }
  destruct (Split_pane _ _ _ _ _ _ H Hid) as (p' & Hp' & _ & _ & Hf & Hl & Hc & _).
  rewrite Hp in Hp'. injection Hp' as <-. by rewrite Hlen.
Qed.

Lemma Split_flags_witness :
  Split false three_ids (three_config false) = Js.Done three_panes
  /\ map Pane.isFirst (panes three_panes) = [true; false; false]
  /\ map Pane.isLast (panes three_panes) = [false; false; true]
  /\ (forall (i : nat) (p : Pane.t), panes three_panes !! i = Some p ->
        Pane.isFirst p = Nat.eqb i 0
        /\ Pane.isLast p = Nat.eqb (S i) (length (panes three_panes))
        /\ Pane.isCollapsed p = false).
Proof.
  split; [reflexivity|]. split; [reflexivity|]. split; [reflexivity|].
  intros i p.
  exact (Split_flags false three_ids (three_config false) three_panes i p eq_refl).
Defined.

(** No pane of a new instance is laid out below its minimum size: a
    pane's minimum is the configured one, or the pane's own computed
    size when that is smaller. *)
Theorem Split_lowers_minSize (ie8 : bool) (ids : list Element) (c : Config.t)
    (st : State) (i : nat) (p : Pane.t) :
  Split ie8 ids c = Js.Done st ->
  panes st !! i = Some p ->
  (dimension (options st) (getBoundingClientRect (Pane.el p))
   <? Js.ToNumber (Pane.minSize p)) = false
  /\ Pane.minSize p
     = if dimension (options st) (getBoundingClientRect (Pane.el p))
          <? Js.ToNumber (configured_minSize c (length (panes st)) i)
       then Js.Num (dimension (options st) (getBoundingClientRect (Pane.el p)))
       else configured_minSize c (length (panes st)) i.
Proof.
  intros H Hp.
  destruct (Split_state _ _ _ _ H) as (Hel & Hlen & _).
  destruct (lookup_lt_is_Some_2 ids i) as [id Hid].
  { rewrite <- Hlen. by eapply lookup_lt_Some. }
  destruct (Split_pane _ _ _ _ _ _ H Hid)
    as (p' & Hp' & He & _ & _ & _ & _ & Hlt & Hmin).
  rewrite Hp in Hp'. injection Hp' as <-. by rewrite He, Hlen.
Qed.

Lemma Split_lowers_minSize_witness :
  Split false narrow_ids no_options = Js.Done narrow_panes
  /\ map Pane.minSize (panes narrow_panes) = [Js.Num 60; Js.Num 100]
  /\ (forall (i : nat) (p : Pane.t), panes narrow_panes !! i = Some p ->
        (dimension (options narrow_panes) (getBoundingClientRect (Pane.el p))
         <? Js.ToNumber (Pane.minSize p)) = false).
Proof.
  split; [reflexivity|]. split; [reflexivity|]. intros i p Hp.
  exact (proj1 (Split_lowers_minSize false narrow_ids no_options narrow_panes
                  i p eq_refl Hp)).
Defined.

(** ** Setting fewer or more sizes than there are panes *)

Lemma setSizes_from_prefix (s : list Js.value) :
  forall (i : nat) (st : State),
    (i + length s <= length (panes st))%nat ->
    exists st',
      setSizes_from i s st = Js.Done st'
      /\ length (panes st') = length (panes st)
      /\ (forall k : nat, (k < i \/ i + length s <= k)%nat ->
            panes st' !! k = panes st !! k)
      /\ (forall (k : nat) (v : Js.value) (p : Pane.t),
            s !! k = Some v -> panes st !! (i + k)%nat = Some p ->
            panes st' !! (i + k)%nat = Some (Pane.set_size v p))
      /\ effects st'
         = effects st
           ++ zip_with (fun v p => applyPaneSize (options st) (Pane.set_size v p))
                s (drop i (panes st))
      /\ options st' = options st.
Proof.
  induction s as [|v s IH]; intros i st Hlen; simpl in *.
  - exists st. repeat split; try done. by rewrite app_nil_r.
  - destruct (lookup_lt_is_Some_2 (panes st) i ltac:(lia)) as [p Hp].
    rewrite Hp. simpl. rewrite list_lookup_alter_eq, Hp. simpl.
    set (st1 := emit _ _).
    destruct (IH (S i) st1) as (st' & Hrun & Hl & Hout & Hnew & Heff & Hopt).
    { subst st1. simpl. rewrite length_alter. lia. }
    exists st'. subst st1. simpl in *. rewrite length_alter in Hl.
    split; [done|]. split; [done|]. split; [|split; [|split; [|done]]].
    + intros k Hk. rewrite Hout by lia. by rewrite list_lookup_alter_ne by lia.
    + intros [|k] w q Hk Hq; simpl in Hk.
      * injection Hk as ->. rewrite Nat.add_0_r in *.
        rewrite Hout by lia. rewrite list_lookup_alter_eq, Hq.
        rewrite Hp in Hq. by injection Hq as ->.
      * replace (i + S k)%nat with (S i + k)%nat in * by lia.
        apply (Hnew k w q Hk). by rewrite list_lookup_alter_ne by lia.
    + rewrite Heff, <- app_assoc. f_equal.
      rewrite (drop_S _ _ _ Hp). simpl. f_equal.
      by rewrite drop_alter_lt by lia.
Qed.

(** [setSizes] with a list shorter than the panes returns: it sets the
    sizes of the first panes, leaves the sizes of the others, and
    re-applies the style of exactly the panes it set, in order. *)
Theorem setSizes_sets_a_prefix (st : State) (s : list Js.value) :
  (length s <= length (panes st))%nat ->
  exists st',
    setSizes st s = Js.Done st'
    /\ getSizes st' = s ++ drop (length s) (getSizes st)
    /\ effects st'
       = effects st
         ++ zip_with (fun v p => applyPaneSize (options st) (Pane.set_size v p))
              s (panes st).
Proof.
  intros Hlen.
  destruct (setSizes_from_prefix s 0 st ltac:(simpl; lia))
    as (st' & Hrun & Hl & Hout & Hnew & Heff & _).
  exists st'. split; [exact Hrun|]. split; [|exact Heff].
  apply list_eq. intros k. unfold getSizes. rewrite list_lookup_fmap.
  destruct (Nat.lt_ge_cases k (length s)) as [Hk|Hk].
  - rewrite lookup_app_l by done.
    destruct (lookup_lt_is_Some_2 s k Hk) as [v Hv].
    destruct (lookup_lt_is_Some_2 (panes st) k ltac:(lia)) as [p Hp].
    pose proof (Hnew k v p Hv Hp) as Hk'. simpl in Hk'.
    rewrite Hk', Hv. reflexivity.
  - rewrite lookup_app_r by done. rewrite lookup_drop, Hout by lia.
    rewrite list_lookup_fmap. f_equal. f_equal. lia.
Qed.

Lemma setSizes_sets_a_prefix_witness :
  (length [Js.Num 10] <= length (panes three_panes))%nat
  /\ exists st',
       setSizes three_panes [Js.Num 10] = Js.Done st'
       /\ getSizes st' = [Js.Num 10; Js.Num 33.3; Js.Num 33.4].
Proof.
  assert (H : (length [Js.Num 10] <= length (panes three_panes))%nat)
    by (simpl; lia).
  split; [exact H|].
  destruct (setSizes_sets_a_prefix three_panes [Js.Num 10] H) as (st' & Hrun & Hs & _).
  exists st'. split; [exact Hrun|]. rewrite Hs. reflexivity.
Defined.

Lemma setSizes_from_overrun (s : list Js.value) :
  forall (i : nat) (st : State),
    (i <= length (panes st) < i + length s)%nat ->
    setSizes_from i s st = Js.Threw.
Proof.
  induction s as [|v s IH]; intros i st Hlen; simpl in *; [lia|].
  destruct (panes st !! i) as [p|] eqn:Hp; simpl; [|reflexivity].
  rewrite list_lookup_alter_eq, Hp. simpl.
  apply IH. simpl. rewrite length_alter.
  apply lookup_lt_Some in Hp. lia.
Qed.

(** [setSizes] with more sizes than there are panes throws. *)
Theorem setSizes_throws_on_a_longer_list (st : State) (s : list Js.value) :
  (length (panes st) < length s)%nat -> setSizes st s = Js.Threw.
Proof. intros H. apply setSizes_from_overrun. lia. Qed.

Lemma setSizes_throws_on_a_longer_list_witness :
  (length (panes two_panes) < length [Js.Num 30; Js.Num 30; Js.Num 40])%nat
  /\ setSizes two_panes [Js.Num 30; Js.Num 30; Js.Num 40] = Js.Threw.
Proof.
  assert (H : (length (panes two_panes)
               < length [Js.Num 30; Js.Num 30; Js.Num 40])%nat) by (simpl; lia).
  split; [exact H|].
  exact (setSizes_throws_on_a_longer_list two_panes _ H).
Defined.

(** ** The indices that [collapse] accepts *)

Lemma index_None {A} (l : list A) (k : Z) :
  (k < 0 \/ Z.of_nat (length l) <= k)%Z -> Js.index l k = None.
Proof.
  intros H. unfold Js.index. destruct (Z.ltb_spec k 0); [done|].
  apply lookup_ge_None_2. lia.
Qed.

Lemma index_is_Some {A} (l : list A) (k : Z) :
  (0 <= k < Z.of_nat (length l))%Z -> exists x, Js.index l k = Some x.
Proof.
  intros H. unfold Js.index. destruct (Z.ltb_spec k 0); [lia|].
  apply lookup_lt_is_Some_2. lia.
Qed.

(** Outside IE8 (where an instance has [collapse]), [collapse(i)] returns
    exactly when pane [i] has a pane after it.  For the last pane, for
    [i] equal to the number of panes (the case the function singles out)
    and for any index outside the panes, [calculateSizes] throws on the
    missing pane, so [collapse] throws without reaching [adjust]. *)
Theorem collapse_returns_iff (st : State) (i : Z) :
  isIE8 (options st) = false ->
  ((0 <= i /\ i + 1 < Z.of_nat (length (panes st)))%Z ->
   exists st', collapse st i = Js.Done st')
  /\ (~ (0 <= i /\ i + 1 < Z.of_nat (length (panes st)))%Z ->
      calculateSizes st
        (Pair.literal
           (if (i =? Z.of_nat (length (panes st)))%Z then i - 1 else i)%Z
           (if (i =? Z.of_nat (length (panes st)))%Z then i else i + 1)%Z
           None) = Js.Threw
      /\ collapse st i = Js.Threw).
Proof.
  intros Hie. split.
  - intros [H0 H1]. unfold collapse, calculateSizes. simpl.
    destruct (Z.eqb_spec i (Z.of_nat (length (panes st)))); [lia|].
    destruct (index_is_Some (panes st) i ltac:(lia)) as [a Ha].
    destruct (index_is_Some (panes st) (i + 1) ltac:(lia)) as [b Hb].
    rewrite Ha, Hb, Hie. simpl.
    by apply (adjust_total st _ Js.Undefined a b).
  - intros Hn.
    assert (Hc : calculateSizes st
              (Pair.literal
                 (if (i =? Z.of_nat (length (panes st)))%Z then i - 1 else i)%Z
                 (if (i =? Z.of_nat (length (panes st)))%Z then i else i + 1)%Z
                 None) = Js.Threw).
    { unfold calculateSizes. simpl.
      destruct (Z.eqb_spec i (Z.of_nat (length (panes st)))) as [->|Hne].
      - rewrite (index_None (panes st) (Z.of_nat (length (panes st)))) by lia.
        destruct (Js.index _ _); reflexivity.
      - destruct (Z.ltb_spec i 0).
        + rewrite (index_None (panes st) i) by lia. reflexivity.
        + rewrite (index_None (panes st) (i + 1)) by lia.
          destruct (Js.index _ _); reflexivity. }
    split; [exact Hc|]. unfold collapse. by rewrite Hc.
Qed.

(** ** Teardown *)

Lemma remove_gutters_throws (gs : list Gutter.t) :
  remove_gutters gs = match gs with [] => Js.Done [] | _ => Js.Threw end.
Proof. by destruct gs. Qed.

(** [destroy] on a new instance throws as soon as the split has a gutter,
    that is for every split of two or more panes outside IE8: it hands
    the gutter object, not its element, to [removeChild].  Only for a
    single pane or under IE8 does it return, having cleared the size
    style of every pane in order. *)
Theorem destroy_throws_when_there_is_a_gutter (ie8 : bool) (ids : list Element)
    (c : Config.t) (st : State) :
  Split ie8 ids c = Js.Done st ->
  destroy st = if ie8 || (length ids <=? 1)%nat
               then Js.Done (map clearDimension ids)
               else Js.Threw.
Proof.
  intros H.
  destruct (Split_state _ _ _ _ H) as (Hel & _ & Hg & _).
  unfold destroy. rewrite remove_gutters_throws.
  destruct (gutters st) as [|g gs] eqn:Egs; simpl in Hg.
  - assert (ie8 || (length ids <=? 1)%nat = true) as ->.
    { destruct ie8; simpl; [done|]. apply Nat.leb_le. lia. }
    simpl. by rewrite <- Hel, <- list_fmap_compose.
  - simpl. destruct ie8; [lia|]. simpl.
    destruct (Nat.leb_spec (length ids) 1); [lia|reflexivity].
Qed.

Lemma destroy_throws_when_there_is_a_gutter_witness :
  Split false two_ids no_options = Js.Done two_panes
  /\ destroy two_panes = Js.Threw
  /\ Split false [mkElement 0 (Rect.mk 900 400 0 0)] no_options = Js.Done one_pane
  /\ destroy one_pane = Js.Done [clearDimension (mkElement 0 (Rect.mk 900 400 0 0))].
Proof.
  split; [reflexivity|].
  split; [exact (destroy_throws_when_there_is_a_gutter false two_ids no_options
                   two_panes eq_refl)|].
  split; reflexivity.
Defined.

(** ** What each handler changes *)

Lemma startDragging_inv (st st' : State) (this : nat) (e : Event) :
  startDragging st this e = Js.Done st' ->
  exists a b g,
    panes st !! this = Some a
    /\ panes st !! S this = Some b
    /\ gutters st !! this = Some g
    /\ options st' = options st
    /\ panes st' = panes st
    /\ gutters st'
       = <[this := Gutter.mk (Gutter.el g) (Gutter.isDragging g)
                     (Gutter.Bound (move_fn (next_fn st) this))
                     (Gutter.Bound (stop_fn (next_fn st) this))]> (gutters st)
    /\ draggingGutter st' = Some this
    /\ listeners st'
       = addEventListener touchmove (move_fn (next_fn st) this)
           (addEventListener mousemove (move_fn (next_fn st) this)
           (addEventListener touchcancel (stop_fn (next_fn st) this)
           (addEventListener touchend (stop_fn (next_fn st) this)
           (addEventListener mouseup (stop_fn (next_fn st) this) (listeners st)))))
    /\ next_fn st' = S (S (next_fn st))
    /\ effects st'
       = effects st
         ++ match draggingGutter st with Some _ => [] | None => [onDragStart] end
         ++ [preventDefault; cursorStyle (OnGutter this) true;
             selection (Pane.el a) true; selection (Pane.el b) true;
             cursorStyle OnParent true; cursorStyle OnBody true].
Proof.
  unfold startDragging. intros H.
  replace (this + 1)%nat with (S this) in H by lia.
  destruct (panes st !! this) as [a|]; [|discriminate].
  destruct (panes st !! S this) as [b|]; [|discriminate].
  destruct (gutters st !! this) as [g|]; [|discriminate].
  simpl in H.
  destruct (startDragging_pair _ _) as [pr| |]; [|discriminate..].
  simpl in H. injection H as <-. exists a, b, g.
  destruct (draggingGutter st); simpl; rewrite <- ?app_assoc; simpl;
    repeat split; reflexivity.
Qed.

Lemma stopDragging_inv (st st' : State) (this : nat) :
  stopDragging st this = Js.Done st' ->
  exists a b g,
    panes st !! this = Some a
    /\ panes st !! S this = Some b
    /\ gutters st !! this = Some g
    /\ options st' = options st
    /\ panes st' = panes st
    /\ gutters st'
       = <[this := Gutter.mk (Gutter.el g) (Some false) Gutter.IsNull Gutter.IsNull]>
           (gutters st)
    /\ draggingGutter st' = draggingGutter st
    /\ listeners st'
       = removeEventListener touchmove (Gutter.move g)
           (removeEventListener mousemove (Gutter.move g)
           (removeEventListener touchcancel (Gutter.stop g)
           (removeEventListener touchend (Gutter.stop g)
           (removeEventListener mouseup (Gutter.stop g) (listeners st)))))
    /\ next_fn st' = next_fn st
    /\ effects st'
       = effects st
         ++ match draggingGutter st with Some _ => [onDragEnd] | None => [] end
         ++ [cursorStyle (OnGutter this) false;
             selection (Pane.el a) false; selection (Pane.el b) false;
             cursorStyle OnParent false; cursorStyle OnBody false].
Proof.
  unfold stopDragging. intros H.
  replace (this + 1)%nat with (S this) in H by lia.
  destruct (gutters st !! this) as [g|]; [|discriminate].
  destruct (panes st !! this) as [a|]; [|discriminate].
  destruct (panes st !! S this) as [b|]; [|discriminate].
  simpl in H. injection H as <-. exists a, b, g.
  destruct (draggingGutter st) eqn:E; simpl; rewrite ?E, <- ?app_assoc; simpl;
    repeat split; reflexivity.
Qed.

Lemma adjust_effects (st st' : State) (this : Pair.t) (offset : Js.value) :
  adjust st this offset = Js.Done st' ->
  next_fn st' = next_fn st
  /\ exists a b, effects st'
                 = effects st ++ [applyPaneSize (options st) a;
                                  applyPaneSize (options st) b].
Proof.
  unfold adjust. intros H.
  destruct (Js.index (panes st) (Pair.a this)) as [a|]; [|discriminate].
  destruct (Js.index (panes st) (Pair.b this)) as [b|]; [|discriminate].
  simpl in H.
  match type of H with
  | context [Js.deref ?o] => destruct o as [a'|]; [|discriminate]
  end. simpl in H.
  match type of H with
  | context [Js.deref ?o] => destruct o as [b'|]; [|discriminate]
  end. simpl in H.
  injection H as <-. simpl.
  split; [|exists a', b'];
    unfold assign_size;
    destruct (Pair.a this <? 0)%Z, (Pair.b this <? 0)%Z; reflexivity.
Qed.

(** The parts of the state that a call can touch, call by call. *)
Lemma step_frame (fuel : nat) (st st' : State) (i : Input) :
  step fuel st i = Js.Done st' ->
  options st' = options st
  /\ (forall k : nat,
        Pane.set_size Js.Undefined <$> panes st' !! k
        = Pane.set_size Js.Undefined <$> panes st !! k)
  /\ map Gutter.el (gutters st') = map Gutter.el (gutters st).
Proof.
  destruct i as [g e|g e|g|s|k]; simpl; intros H.
  - destruct (startDragging_inv _ _ _ _ H)
      as (a & b & g0 & _ & _ & Hg & Ho & Hp & Hgs & _).
    rewrite Ho, Hp, Hgs. repeat split; try done.
    rewrite list_fmap_insert. simpl. apply list_insert_id.
    by rewrite list_lookup_fmap, Hg.
  - unfold drag in H. destruct (draggingGutter st); [|by injection H as <-].
    destruct (drag_target fuel st g e) as [[pr x]| |]; [|discriminate..].
    simpl in H.
    destruct (adjust st pr (Js.Num x)) as [st1| |] eqn:Hadj; [|discriminate..].
    simpl in H. injection H as <-. simpl.
    destruct (adjust_inv _ _ _ _ Hadj) as (a & b & _ & _ & Hp & Ho & Hg & _).
    rewrite Ho, Hg, Hp. repeat split; try done.
    intros k. by rewrite !lookup_alter_set_size.
  - destruct (stopDragging_inv _ _ _ H)
      as (a & b & g0 & _ & _ & Hg & Ho & Hp & Hgs & _).
    rewrite Ho, Hp, Hgs. repeat split; try done.
    rewrite list_fmap_insert. simpl. apply list_insert_id.
    by rewrite list_lookup_fmap, Hg.
  - unfold setSizes in H.
    destruct (Nat.le_gt_cases (length s) (length (panes st))) as [Hle|Hgt].
    + destruct (setSizes_from_prefix s 0 st ltac:(simpl; lia))
        as (st1 & Hrun & Hl & Hout & Hnew & Heff & Ho).
      rewrite H in Hrun. injection Hrun as <-.
      split; [done|]. split.
      * intros k. destruct (Nat.lt_ge_cases k (length s)) as [Hk|Hk].
        -- destruct (lookup_lt_is_Some_2 s k Hk) as [v Hv].
           destruct (lookup_lt_is_Some_2 (panes st) k ltac:(lia)) as [p Hp].
           pose proof (Hnew k v p Hv Hp) as Hk'. simpl in Hk'.
           by rewrite Hk', Hp.
        -- by rewrite Hout by lia.
      * clear -H. revert H. generalize 0%nat. revert st.
        induction s as [|v s IH]; intros st n H; simpl in H.
        -- by injection H as <-.
        -- destruct (panes st !! n); [|discriminate]. simpl in H.
           match type of H with
           | context [Js.deref ?o] => destruct o; [|discriminate]
           end. simpl in H. by apply IH in H.
    + rewrite setSizes_from_overrun in H by lia. discriminate.
  - unfold collapse in H.
    destruct (calculateSizes _ _) as [pr| |]; [|discriminate..]. simpl in H.
    destruct (isIE8 (options st)); simpl in H; [by injection H as <-|].
    destruct (adjust_inv _ _ _ _ H) as (a & b & _ & _ & Hp & Ho & Hg & _).
    rewrite Ho, Hg, Hp. repeat split; try done.
    intros j. by rewrite !lookup_alter_set_size.
Qed.

(** ** Runs of calls *)

Lemma run_invariant (P : State -> Prop) (fuel : nat) :
  (forall st i st', P st -> step fuel st i = Js.Done st' -> P st') ->
  forall inputs st st', P st -> run fuel inputs st = Js.Done st' -> P st'.
Proof.
  intros Hstep. induction inputs as [|i inputs IH]; intros st st' HP H; simpl in H.
  - by injection H as <-.
  - destruct (step fuel st i) as [st1| |] eqn:Hs; [|discriminate..].
    simpl in H. eapply IH; [|exact H]. by eapply Hstep.
Qed.

Lemma run_frame (fuel : nat) (inputs : list Input) (st0 st : State) :
  run fuel inputs st0 = Js.Done st ->
  options st = options st0
  /\ (forall k : nat,
        Pane.set_size Js.Undefined <$> panes st !! k
        = Pane.set_size Js.Undefined <$> panes st0 !! k)
  /\ map Gutter.el (gutters st) = map Gutter.el (gutters st0).
Proof.
  intros Hrun.
  apply (run_invariant
           (fun s => options s = options st0
                     /\ (forall k : nat,
                           Pane.set_size Js.Undefined <$> panes s !! k
                           = Pane.set_size Js.Undefined <$> panes st0 !! k)
                     /\ map Gutter.el (gutters s) = map Gutter.el (gutters st0))
           fuel) with (inputs := inputs) (st := st0); [|done|done].
  intros s i s' (Ho & Hp & Hg) Hs.
  destruct (step_frame _ _ _ _ Hs) as (Ho' & Hp' & Hg').
  split; [congruence|]. split; [|congruence].
  intros k. by rewrite Hp', Hp.
Qed.

Lemma run_lengths (fuel : nat) (inputs : list Input) (st0 st : State) :
  run fuel inputs st0 = Js.Done st ->
  length (panes st) = length (panes st0)
  /\ length (gutters st) = length (gutters st0).
Proof.
  intros Hrun. destruct (run_frame _ _ _ _ Hrun) as (_ & Hp & Hg). split.
  - rewrite <- (length_map (Pane.set_size Js.Undefined) (panes st)).
    rewrite <- (length_map (Pane.set_size Js.Undefined) (panes st0)).
    f_equal. apply list_eq. intros k. by rewrite !list_lookup_fmap.
  - by rewrite <- (length_map Gutter.el), Hg, length_map.
Qed.

(** Whatever calls an instance receives, only the sizes of its panes
    ever change: the options, the number of panes and gutters, and every
    pane's element, minimum size and first, last and collapsed marks are
    those of the construction.  No pane is ever marked collapsed. *)
Theorem only_sizes_ever_change (ie8 : bool) (ids : list Element) (c : Config.t)
    (fuel : nat) (inputs : list Input) (st0 st : State) :
  Split ie8 ids c = Js.Done st0 ->
  run fuel inputs st0 = Js.Done st ->
  options st = options st0
  /\ map (Pane.set_size Js.Undefined) (panes st)
     = map (Pane.set_size Js.Undefined) (panes st0)
  /\ length (gutters st) = length (gutters st0)
  /\ Forall (fun p => Pane.isCollapsed p = false) (panes st).
Proof.
  intros HS Hrun.
  destruct (run_frame _ _ _ _ Hrun) as (Ho & Hp & Hg).
  split; [done|]. split; [|split].
  - apply list_eq. intros k. by rewrite !list_lookup_fmap.
  - by destruct (run_lengths _ _ _ _ Hrun).
  - apply Forall_lookup. intros k p Hk.
    specialize (Hp k). rewrite Hk in Hp. simpl in Hp.
    destruct (panes st0 !! k) as [p0|] eqn:Hk0; [|discriminate].
    destruct (Split_state _ _ _ _ HS) as (_ & Hlen0 & _).
    destruct (lookup_lt_is_Some_2 ids k) as [id Hid].
    { rewrite <- Hlen0. by eapply lookup_lt_Some. }
    destruct (Split_pane _ _ _ _ _ _ HS Hid) as (p0' & Hp0 & _ & _ & _ & _ & Hc & _).
    rewrite Hk0 in Hp0. injection Hp0 as <-.
    simpl in Hp. injection Hp as Hp.
    destruct p, p0. unfold Pane.set_size in Hp. simpl in *. congruence.
Qed.

Lemma only_sizes_ever_change_witness :
  Split false three_ids (three_config false) = Js.Done three_panes
  /\ run 0 [pointer_down 0 (mouse_at 300); pointer_move 0 (mouse_at 400);
            pointer_stop 0; call_collapse 1] three_panes
     = Js.Done collapsed_after_drag
  /\ getSizes collapsed_after_drag = [Js.Num nan; Js.Num nan; Js.Num nan]
  /\ map (Pane.set_size Js.Undefined) (panes collapsed_after_drag)
     = map (Pane.set_size Js.Undefined) (panes three_panes)
  /\ Forall (fun p => Pane.isCollapsed p = false) (panes collapsed_after_drag).
Proof.
  assert (H : run 0 [pointer_down 0 (mouse_at 300); pointer_move 0 (mouse_at 400);
                     pointer_stop 0; call_collapse 1] three_panes
              = Js.Done collapsed_after_drag) by reflexivity.
  destruct (only_sizes_ever_change false three_ids (three_config false) 0 _
              three_panes collapsed_after_drag eq_refl H) as (_ & Hp & _ & Hc).
  split; [reflexivity|]. split; [exact H|]. split; [reflexivity|].
  split; [exact Hp|exact Hc].
Defined.

Lemma calls_app (which : Effect -> bool) (st st' : State) (es : list Effect) :
  effects st' = effects st ++ es ->
  calls which st' = (calls which st + length (List.filter which es))%nat.
Proof. intros H. unfold calls. by rewrite H, List.filter_app, length_app. Qed.

Lemma setSizes_from_frame (s : list Js.value) :
  forall (i : nat) (st st' : State),
    setSizes_from i s st = Js.Done st' ->
    draggingGutter st' = draggingGutter st
    /\ listeners st' = listeners st
    /\ next_fn st' = next_fn st
    /\ gutters st' = gutters st.
Proof.
  induction s as [|v s IH]; intros i st st' H; simpl in H.
  - by injection H as <-.
  - destruct (panes st !! i); [|discriminate]. simpl in H.
    match type of H with
    | context [Js.deref ?o] => destruct o; [|discriminate]
    end. simpl in H. by apply IH in H.
Qed.

Lemma no_callback_in_styles (which : Effect -> bool) (o : Options)
    (s : list Js.value) (l : list Pane.t) :
  (forall el size gutSize, which (elementStyle el size gutSize) = false) ->
  List.filter which
    (zip_with (fun v p => applyPaneSize o (Pane.set_size v p)) s l) = [].
Proof.
  intros Hw. revert l. induction s as [|v s IH]; intros [|p l]; simpl; try done.
  unfold applyPaneSize at 1. by rewrite Hw.
Qed.

(** How a call moves the guard variable and the count of [onDragStart]. *)
Lemma step_session (fuel : nat) (st st' : State) (i : Input) :
  step fuel st i = Js.Done st' ->
  draggingGutter st'
  = match i with pointer_down g _ => Some g | _ => draggingGutter st end
  /\ calls is_onDragStart st'
     = (calls is_onDragStart st
        + match i, draggingGutter st with
          | pointer_down _ _, None => 1
          | _, _ => 0
          end)%nat.
Proof.
  destruct i as [g e|g e|g|s|k]; simpl; intros H.
  - destruct (startDragging_inv _ _ _ _ H)
      as (a & b & g0 & _ & _ & _ & _ & _ & _ & Hd & _ & _ & He).
    split; [done|]. rewrite (calls_app _ _ _ _ He).
    by destruct (draggingGutter st).
  - unfold drag in H.
    destruct (draggingGutter st) as [d|] eqn:Hd.
    2:{ injection H as <-. rewrite Hd. split; [done|lia]. }
    destruct (drag_target fuel st g e) as [[pr x]| |]; [|discriminate..].
    simpl in H.
    destruct (adjust st pr (Js.Num x)) as [st1| |] eqn:Hadj; [|discriminate..].
    simpl in H. injection H as <-. simpl.
    destruct (adjust_inv _ _ _ _ Hadj) as (_ & _ & _ & _ & _ & _ & _ & Hdg & _).
    destruct (adjust_effects _ _ _ _ Hadj) as (_ & a & b & He).
    split; [congruence|]. unfold calls. simpl.
    rewrite He, !List.filter_app, !length_app. simpl. lia.
  - destruct (stopDragging_inv _ _ _ H)
      as (a & b & g0 & _ & _ & _ & _ & _ & _ & Hd & _ & _ & He).
    split; [done|]. rewrite (calls_app _ _ _ _ He).
    destruct (draggingGutter st); simpl; lia.
  - unfold setSizes in H.
    destruct (setSizes_from_frame _ _ _ _ H) as (Hd & _).
    destruct (Nat.le_gt_cases (length s) (length (panes st))) as [Hle|Hgt].
    + destruct (setSizes_from_prefix s 0 st ltac:(simpl; lia))
        as (st1 & Hrun & _ & _ & _ & Heff & _).
      rewrite H in Hrun. injection Hrun as <-.
      split; [done|]. rewrite (calls_app _ _ _ _ Heff).
      rewrite no_callback_in_styles by done.
      destruct (draggingGutter st); simpl; lia.
    + rewrite setSizes_from_overrun in H by lia. discriminate.
  - unfold collapse in H.
    destruct (calculateSizes _ _) as [pr| |]; [|discriminate..]. simpl in H.
    destruct (isIE8 (options st)); simpl in H.
    { injection H as <-. split; [done|]. destruct (draggingGutter st); lia. }
    destruct (adjust_inv _ _ _ _ H) as (_ & _ & _ & _ & _ & _ & _ & Hdg & _).
    destruct (adjust_effects _ _ _ _ H) as (_ & a & b & He).
    split; [done|]. rewrite (calls_app _ _ _ _ He). simpl.
    destruct (draggingGutter st); simpl; lia.
Qed.

Lemma run_session (fuel : nat) (inputs : list Input) :
  forall st st' : State,
    run fuel inputs st = Js.Done st' ->
    (draggingGutter st' = None
     <-> draggingGutter st = None /\ existsb is_pointer_down inputs = false)
    /\ calls is_onDragStart st'
       = (calls is_onDragStart st
          + match draggingGutter st with
            | None => if existsb is_pointer_down inputs then 1 else 0
            | Some _ => 0
            end)%nat.
Proof.
  induction inputs as [|i inputs IH]; intros st st' H; simpl in H.
  - injection H as <-. simpl. split; [tauto|]. destruct (draggingGutter st); lia.
  - destruct (step fuel st i) as [st1| |] eqn:Hs; [|discriminate..].
    simpl in H. destruct (IH _ _ H) as (Hnone & Hcalls).
    destruct (step_session _ _ _ _ Hs) as (Hd & Hc).
    rewrite Hcalls, Hc, Hnone, Hd. clear.
    destruct i, (draggingGutter st); simpl;
      (split; [intuition congruence|]);
      destruct (existsb is_pointer_down inputs); lia.
Qed.

Lemma Split_effects_quiet (ie8 : bool) (ids : list Element) (c : Config.t)
    (st : State) :
  Split ie8 ids c = Js.Done st -> calls is_onDragStart st = 0%nat.
Proof.
  intros H.
  destruct (Split_inv _ _ _ _ H) as (_ & o & sizes & minSizes & _ & _ & _ & ->).
  generalize (length ids) at 1. intros count.
  assert (Hgen : forall ids' i st0,
            calls is_onDragStart (make_panes o sizes minSizes count i ids' st0)
            = calls is_onDragStart st0).
  { induction ids' as [|id ids' IH]; intros i st0; simpl; [done|].
    rewrite IH. unfold make_pane, calls.
    destruct ((0 <? i)%nat && negb (isIE8 o)); simpl;
      rewrite !List.filter_app; simpl; rewrite ?app_nil_r; reflexivity. }
  by rewrite Hgen.
Qed.

(** [onDragStart] is called once in the life of an instance, at its first
    pointer-down, however many sessions follow: the guard variable is
    [null] exactly until then and never again. *)
Theorem onDragStart_is_called_once (ie8 : bool) (ids : list Element)
    (c : Config.t) (fuel : nat) (inputs : list Input) (st0 st : State) :
  Split ie8 ids c = Js.Done st0 ->
  run fuel inputs st0 = Js.Done st ->
  calls is_onDragStart st = (if existsb is_pointer_down inputs then 1 else 0)%nat
  /\ (draggingGutter st = None <-> existsb is_pointer_down inputs = false).
Proof.
  intros HS Hrun.
  destruct (run_session _ _ _ _ Hrun) as (Hnone & Hcalls).
  destruct (Split_state _ _ _ _ HS) as (_ & _ & _ & Hd & _).
  rewrite Hd in Hcalls, Hnone. rewrite (Split_effects_quiet _ _ _ _ HS) in Hcalls.
  split; [exact Hcalls|]. tauto.
Qed.

Lemma onDragStart_is_called_once_witness :
  Split false two_ids no_options = Js.Done two_panes
  /\ run 0 [pointer_down 0 (mouse_at 470); pointer_stop 0;
            pointer_down 0 (mouse_at 470); pointer_stop 0] two_panes
     = Js.Done two_sessions
  /\ calls is_onDragStart two_sessions = 1%nat
  /\ calls is_onDragEnd two_sessions = 2%nat
  /\ draggingGutter two_sessions <> None.
Proof.
  assert (H : run 0 [pointer_down 0 (mouse_at 470); pointer_stop 0;
                     pointer_down 0 (mouse_at 470); pointer_stop 0] two_panes
              = Js.Done two_sessions) by reflexivity.
  destruct (onDragStart_is_called_once false two_ids no_options 0 _ two_panes
              two_sessions eq_refl H) as (Hc & Hd).
  split; [reflexivity|]. split; [exact H|]. split; [exact Hc|].
  split; [reflexivity|discriminate].
Defined.

(** ** The listeners on [window] *)

Lemma same_listener_fresh (t : EventType) (f : Fn) (n : nat)
    (ls : list (EventType * Fn)) :
  Forall (fun l => (fn_id l.2 < n)%nat) ls ->
  (n <= fn_id f)%nat ->
  Forall (fun l => same_listener t f l = false) ls.
Proof.
  intros Hls Hf. eapply Forall_impl; [exact Hls|].
  intros [t' f'] Hlt. simpl in Hlt. unfold same_listener. simpl.
  destruct (Nat.eqb_spec (fn_id f') (fn_id f)); [lia|]. apply andb_false_r.
Qed.

Lemma addEventListener_new (t : EventType) (f : Fn) (ls : list (EventType * Fn)) :
  Forall (fun l => same_listener t f l = false) ls ->
  addEventListener t f ls = ls ++ [(t, f)].
Proof.
  intros H. unfold addEventListener.
  assert (existsb (same_listener t f) ls = false) as ->; [|done].
  induction H as [|l ls Hl _ IH]; simpl; [done|]. by rewrite Hl, IH.
Qed.

Lemma filter_keeps_all {A} (f : A -> bool) (l : list A) :
  Forall (fun x => f x = true) l -> List.filter f l = l.
Proof. induction 1 as [|x l Hx _ IH]; simpl; [done|]. by rewrite Hx, IH. Qed.

Lemma Forall_filter_list {A} (P : A -> Prop) (f : A -> bool) (l : list A) :
  Forall P l -> Forall P (List.filter f l).
Proof.
  induction 1 as [|x l Hx _ IH]; simpl; [constructor|].
  destruct (f x); [by constructor|done].
Qed.

Lemma removeEventListener_fresh (t : EventType) (f : Fn) (n : nat)
    (ls : list (EventType * Fn)) :
  Forall (fun l => (fn_id l.2 < n)%nat) ls ->
  (n <= fn_id f)%nat ->
  removeEventListener t (Gutter.Bound f) ls = ls.
Proof.
  intros Hls Hf. simpl. apply filter_keeps_all.
  eapply Forall_impl; [exact (same_listener_fresh t f n ls Hls Hf)|].
  intros l ->. reflexivity.
Qed.

(** A pointer-down appends its five listeners to those already there. *)
Lemma startDragging_listeners (st st' : State) (this : nat) (e : Event) :
  listeners_fresh st ->
  startDragging st this e = Js.Done st' ->
  listeners st' = listeners st ++ session_listeners (next_fn st) this
  /\ listeners_fresh st'.
Proof.
  intros Hf H.
  destruct (startDragging_inv _ _ _ _ H)
    as (a & b & g & _ & _ & _ & _ & _ & _ & _ & Hl & Hn & _).
  assert (Hls : listeners st' = listeners st ++ session_listeners (next_fn st) this).
  { rewrite Hl. unfold session_listeners.
    rewrite (addEventListener_new mouseup).
    2:{ apply (same_listener_fresh _ _ (next_fn st)); [done|simpl; lia]. }
    rewrite (addEventListener_new touchend).
    2:{ apply Forall_app. split; [|by repeat constructor].
        apply (same_listener_fresh _ _ (next_fn st)); [done|simpl; lia]. }
    rewrite (addEventListener_new touchcancel).
    2:{ rewrite <- app_assoc. apply Forall_app. split; [|by repeat constructor].
        apply (same_listener_fresh _ _ (next_fn st)); [done|simpl; lia]. }
    rewrite (addEventListener_new mousemove).
    2:{ rewrite <- !app_assoc. apply Forall_app. split; [|by repeat constructor].
        apply (same_listener_fresh _ _ (next_fn st)); [done|simpl; lia]. }
    rewrite (addEventListener_new touchmove).
    2:{ rewrite <- !app_assoc. apply Forall_app. split; [|by repeat constructor].
        apply (same_listener_fresh _ _ (next_fn st)); [done|simpl; lia]. }
    by rewrite <- !app_assoc. }
  split; [done|]. unfold listeners_fresh. rewrite Hls, Hn.
  apply Forall_app. split.
  - eapply Forall_impl; [exact Hf|]. intros l Hlt. simpl in *. lia.
  - repeat constructor; simpl; lia.
Qed.

Lemma same_listener_self (t t' : EventType) (f : Fn) :
  same_listener t f (t', f) = bool_decide (t' = t).
Proof. unfold same_listener. simpl. by rewrite Nat.eqb_refl, andb_true_r. Qed.

Lemma same_listener_other (t t' : EventType) (f f' : Fn) :
  fn_id f' <> fn_id f -> same_listener t f (t', f') = false.
Proof.
  intros H. unfold same_listener. simpl.
  destruct (Nat.eqb_spec (fn_id f') (fn_id f)); [done|]. apply andb_false_r.
Qed.

#[local] Arguments same_listener : simpl never.

(** Removing the five listeners of a session from a list that ends with
    them leaves what was there before. *)
Lemma remove_session_listeners (n this : nat) (ls : list (EventType * Fn)) :
  Forall (fun l => (fn_id l.2 < n)%nat) ls ->
  removeEventListener touchmove (Gutter.Bound (move_fn n this))
    (removeEventListener mousemove (Gutter.Bound (move_fn n this))
    (removeEventListener touchcancel (Gutter.Bound (stop_fn n this))
    (removeEventListener touchend (Gutter.Bound (stop_fn n this))
    (removeEventListener mouseup (Gutter.Bound (stop_fn n this))
       (ls ++ session_listeners n this)))))
  = ls.
Proof.
  intros Hls.
  assert (Hkeep : forall t f, (n <= fn_id f)%nat ->
            List.filter (fun l => negb (same_listener t f l)) ls = ls).
  { intros t f Hf. exact (removeEventListener_fresh t f n ls Hls Hf). }
  unfold removeEventListener, session_listeners.
  rewrite !List.filter_app, !Hkeep by (simpl; lia).
  repeat (cbn [List.filter];
          rewrite ?same_listener_self, ?same_listener_other by (simpl; lia);
          simpl).
  apply app_nil_r.
Qed.

Lemma step_fresh (fuel : nat) (st st' : State) (i : Input) :
  listeners_fresh st -> step fuel st i = Js.Done st' -> listeners_fresh st'.
Proof.
  unfold listeners_fresh at 2.
  destruct i as [g e|g e|g|s|k]; simpl; intros Hf H.
  - by destruct (startDragging_listeners _ _ _ _ Hf H).
  - unfold drag in H. destruct (draggingGutter st); [|by injection H as <-].
    destruct (drag_target fuel st g e) as [[pr x]| |]; [|discriminate..].
    simpl in H.
    destruct (adjust st pr (Js.Num x)) as [st1| |] eqn:Hadj; [|discriminate..].
    simpl in H. injection H as <-. simpl.
    destruct (adjust_inv _ _ _ _ Hadj) as (_ & _ & _ & _ & _ & _ & _ & _ & Hl).
    destruct (adjust_effects _ _ _ _ Hadj) as (Hn & _).
    by rewrite Hl, Hn.
  - destruct (stopDragging_inv _ _ _ H)
      as (a & b & g0 & _ & _ & _ & _ & _ & _ & _ & Hl & Hn & _).
    rewrite Hl, Hn. unfold removeEventListener.
    destruct (Gutter.move g0), (Gutter.stop g0);
      repeat apply Forall_filter_list; exact Hf.
  - destruct (setSizes_from_frame _ _ _ _ H) as (_ & Hl & Hn & _).
    by rewrite Hl, Hn.
  - unfold collapse in H.
    destruct (calculateSizes _ _) as [pr| |]; [|discriminate..]. simpl in H.
    destruct (isIE8 (options st)); simpl in H; [by injection H as <-|].
    destruct (adjust_inv _ _ _ _ H) as (_ & _ & _ & _ & _ & _ & _ & _ & Hl).
    destruct (adjust_effects _ _ _ _ H) as (Hn & _).
    by rewrite Hl, Hn.
Qed.

Lemma reachable_fresh (ie8 : bool) (ids : list Element) (c : Config.t)
    (fuel : nat) (inputs : list Input) (st0 st : State) :
  Split ie8 ids c = Js.Done st0 ->
  run fuel inputs st0 = Js.Done st ->
  listeners_fresh st.
Proof.
  intros HS Hrun.
  apply (run_invariant listeners_fresh fuel) with (inputs := inputs) (st := st0);
    [|
     |done].
  - intros s i s'. apply step_fresh.
  - destruct (Split_state _ _ _ _ HS) as (_ & _ & _ & _ & Hl & _).
    unfold listeners_fresh. rewrite Hl. constructor.
Qed.

Lemma stop_after_start (st st1 : State) (this : nat) (e : Event) :
  listeners_fresh st ->
  startDragging st this e = Js.Done st1 ->
  exists st2 g,
    stopDragging st1 this = Js.Done st2
    /\ listeners st2 = listeners st
    /\ gutters st2 !! this = Some g
    /\ Gutter.move g = Gutter.IsNull
    /\ Gutter.stop g = Gutter.IsNull
    /\ Gutter.isDragging g = Some false.
Proof.
  intros Hf H1.
  destruct (startDragging_listeners _ _ _ _ Hf H1) as (Hl1 & _).
  destruct (startDragging_inv _ _ _ _ H1)
    as (a & b & g & Ha & Hb & Hg & _ & Hp & Hgs & _).
  assert (Hg1 : gutters st1 !! this
                = Some (Gutter.mk (Gutter.el g) (Gutter.isDragging g)
                          (Gutter.Bound (move_fn (next_fn st) this))
                          (Gutter.Bound (stop_fn (next_fn st) this)))).
  { rewrite Hgs. apply list_lookup_insert_eq. by eapply lookup_lt_Some. }
  assert (Hstop : exists st2, stopDragging st1 this = Js.Done st2).
  { unfold stopDragging. rewrite Hg1, Hp, Ha.
    replace (this + 1)%nat with (S this) by lia. rewrite Hb. simpl. eauto. }
  destruct Hstop as [st2 H2]. exists st2.
  destruct (stopDragging_inv _ _ _ H2)
    as (a' & b' & g' & _ & _ & Hg' & _ & _ & Hgs2 & _ & Hl2 & _).
  rewrite Hg1 in Hg'. injection Hg' as <-. simpl in *.
  eexists. split; [done|]. split.
  - rewrite Hl2, Hl1. by apply remove_session_listeners.
  - rewrite Hgs2. split.
    + apply list_lookup_insert_eq. rewrite Hgs, length_insert.
      by eapply lookup_lt_Some.
    + repeat split.
Qed.

(** A session leaves no listener behind: in any state an instance can
    reach, a pointer-down on a gutter followed by a stop for that gutter
    returns, puts the listeners on [window] back to what they were before
    the pointer-down, and leaves the gutter with [move] and [stop] set to
    [null]. *)
Theorem session_restores_the_listeners (ie8 : bool) (ids : list Element)
    (c : Config.t) (fuel : nat) (inputs : list Input) (st0 st st1 : State)
    (this : nat) (e : Event) :
  Split ie8 ids c = Js.Done st0 ->
  run fuel inputs st0 = Js.Done st ->
  startDragging st this e = Js.Done st1 ->
  listeners st1 = listeners st ++ session_listeners (next_fn st) this
  /\ exists st2 g,
       stopDragging st1 this = Js.Done st2
       /\ listeners st2 = listeners st
       /\ gutters st2 !! this = Some g
       /\ Gutter.move g = Gutter.IsNull
       /\ Gutter.stop g = Gutter.IsNull
       /\ Gutter.isDragging g = Some false.
Proof.
  intros HS Hrun H1.
  pose proof (reachable_fresh _ _ _ _ _ _ _ HS Hrun) as Hf.
  destruct (startDragging_listeners _ _ _ _ Hf H1) as (Hl1 & _).
  split; [done|]. by eapply stop_after_start.
Qed.

Lemma session_restores_the_listeners_witness :
  Split false three_ids (three_config false) = Js.Done three_panes
  /\ run 0 [pointer_down 0 (mouse_at 300)] three_panes = Js.Done dragging_first
  /\ startDragging dragging_first 1 (mouse_at 600) = Js.Done rebound_to_second
  /\ exists st2,
       stopDragging rebound_to_second 1 = Js.Done st2
       /\ listeners st2 = listeners dragging_first
       /\ length (listeners st2) = 5%nat.
Proof.
  assert (Hrun : run 0 [pointer_down 0 (mouse_at 300)] three_panes
                 = Js.Done dragging_first) by reflexivity.
  assert (H1 : startDragging dragging_first 1 (mouse_at 600)
               = Js.Done rebound_to_second) by reflexivity.
  destruct (session_restores_the_listeners false three_ids (three_config false) 0
              _ three_panes dragging_first rebound_to_second 1 (mouse_at 600)
              eq_refl Hrun H1) as (_ & st2 & g & H2 & Hl & _).
  split; [reflexivity|]. split; [exact Hrun|]. split; [exact H1|].
  exists st2. split; [exact H2|]. split; [exact Hl|]. rewrite Hl. reflexivity.
Defined.

(** A pointer-down on a gutter whose session was never stopped orphans
    the listeners of that session.  After two pointer-downs on the same
    gutter, the stop removes the five listeners of the second only; those
    of the first stay on [window], and since the gutter's [move] and
    [stop] are now [null], a further stop removes nothing. *)
Theorem unstopped_session_leaks_its_listeners (ie8 : bool) (ids : list Element)
    (c : Config.t) (fuel : nat) (inputs : list Input) (st0 st st1 st2 : State)
    (this : nat) (e e' : Event) :
  Split ie8 ids c = Js.Done st0 ->
  run fuel inputs st0 = Js.Done st ->
  startDragging st this e = Js.Done st1 ->
  startDragging st1 this e' = Js.Done st2 ->
  exists st3 st4,
    stopDragging st2 this = Js.Done st3
    /\ listeners st3 = listeners st ++ session_listeners (next_fn st) this
    /\ stopDragging st3 this = Js.Done st4
    /\ listeners st4 = listeners st3.
Proof.
  intros HS Hrun H1 H2.
  pose proof (reachable_fresh _ _ _ _ _ _ _ HS Hrun) as Hf.
  destruct (startDragging_listeners _ _ _ _ Hf H1) as (Hl1 & Hf1).
  destruct (stop_after_start _ _ _ _ Hf1 H2)
    as (st3 & g & H3 & Hl3 & Hg3 & Hm & Hs & _).
  destruct (stopDragging_inv _ _ _ H3) as (a & b & g2 & Ha & Hb & _ & _ & Hp & _).
  assert (H4 : exists st4, stopDragging st3 this = Js.Done st4).
  { unfold stopDragging. rewrite Hg3, Hp, Ha.
    replace (this + 1)%nat with (S this) by lia. rewrite Hb. simpl. eauto. }
  destruct H4 as [st4 H4]. exists st3, st4.
  split; [done|]. split; [by rewrite Hl3|]. split; [done|].
  destruct (stopDragging_inv _ _ _ H4)
    as (_ & _ & g' & _ & _ & Hg' & _ & _ & _ & _ & Hl4 & _).
  rewrite Hg3 in Hg'. injection Hg' as <-. by rewrite Hl4, Hm, Hs.
Qed.

Lemma unstopped_session_leaks_its_listeners_witness :
  Split false three_ids (three_config false) = Js.Done three_panes
  /\ run 0 [] three_panes = Js.Done three_panes
  /\ startDragging three_panes 0 (mouse_at 300) = Js.Done dragging_first
  /\ startDragging dragging_first 0 (mouse_at 300) = Js.Done started_twice
  /\ stopDragging started_twice 0 = Js.Done started_twice_stopped
  /\ listeners started_twice_stopped = session_listeners 0 0.
Proof.
  assert (H1 : startDragging three_panes 0 (mouse_at 300) = Js.Done dragging_first)
    by reflexivity.
  assert (H2 : startDragging dragging_first 0 (mouse_at 300) = Js.Done started_twice)
    by reflexivity.
  destruct (unstopped_session_leaks_its_listeners false three_ids
              (three_config false) 0 [] three_panes three_panes dragging_first
              started_twice 0 (mouse_at 300) (mouse_at 300) eq_refl eq_refl H1 H2)
    as (st3 & st4 & H3 & Hl3 & _).
  split; [reflexivity|]. split; [reflexivity|]. split; [exact H1|].
  split; [exact H2|]. split; [reflexivity|].
  assert (E : st3 = started_twice_stopped).
  { assert (Hs : stopDragging started_twice 0 = Js.Done started_twice_stopped)
      by reflexivity.
    rewrite Hs in H3. by injection H3. }
  rewrite <- E, Hl3. reflexivity.
Defined.

(** ** The handlers on the gutters of an instance *)

(** In every state an instance can reach, the three handlers of each of
    its gutters return: a pointer-down, a stop, and a mouse move never
    throw. *)
Theorem handlers_of_a_gutter_return (ie8 : bool) (ids : list Element)
    (c : Config.t) (fuel : nat) (inputs : list Input) (st0 st : State)
    (this : nat) (e : Event) (p : Point) :
  Split ie8 ids c = Js.Done st0 ->
  run fuel inputs st0 = Js.Done st ->
  (this < length (gutters st))%nat ->
  (exists st', startDragging st this e = Js.Done st')
  /\ (exists st', stopDragging st this = Js.Done st')
  /\ (exists st', drag fuel st this (MouseEvent p) = Js.Done st').
Proof.
  intros HS Hrun Hthis.
  destruct (Split_state _ _ _ _ HS) as (_ & Hlp & Hlg & _).
  destruct (run_lengths _ _ _ _ Hrun) as (Hp & Hg).
  assert (Hb : (S this < length (panes st))%nat) by (destruct ie8; lia).
  destruct (lookup_lt_is_Some_2 (panes st) this ltac:(lia)) as [a Ha].
  destruct (lookup_lt_is_Some_2 (panes st) (S this) Hb) as [b Hb'].
  destruct (lookup_lt_is_Some_2 (gutters st) this Hthis) as [g Hg'].
  split; [|split].
  - unfold startDragging. replace (this + 1)%nat with (S this) by lia.
    rewrite Ha, Hb', Hg'. simpl.
    unfold startDragging_pair, calculateSizes. simpl.
    replace (Z.of_nat this + 1)%Z with (Z.of_nat (S this)) by lia.
    rewrite !index_of_nat.
    destruct (draggingGutter st); simpl; rewrite Ha, Hb'; simpl; eauto.
  - unfold stopDragging. replace (this + 1)%nat with (S this) by lia.
    rewrite Ha, Hb', Hg'. simpl. eauto.
  - by apply (drag_returns fuel st this p a b).
Qed.

Lemma handlers_of_a_gutter_return_witness :
  Split false three_ids (three_config false) = Js.Done three_panes
  /\ run 0 [pointer_down 0 (mouse_at 300); pointer_move 0 (mouse_at 400);
            pointer_stop 0; call_collapse 1] three_panes
     = Js.Done collapsed_after_drag
  /\ (1 < length (gutters collapsed_after_drag))%nat
  /\ (exists st', startDragging collapsed_after_drag 1 (mouse_at 600) = Js.Done st')
  /\ (exists st', stopDragging collapsed_after_drag 1 = Js.Done st')
  /\ (exists st', drag 0 collapsed_after_drag 1 (MouseEvent (mkPoint 610 200))
                  = Js.Done st').
Proof.
  assert (Hrun : run 0 [pointer_down 0 (mouse_at 300); pointer_move 0 (mouse_at 400);
                        pointer_stop 0; call_collapse 1] three_panes
                 = Js.Done collapsed_after_drag) by reflexivity.
  assert (Hlt : (1 < length (gutters collapsed_after_drag))%nat) by (simpl; lia).
  split; [reflexivity|]. split; [exact Hrun|]. split; [exact Hlt|].
  exact (handlers_of_a_gutter_return false three_ids (three_config false) 0 _
           three_panes collapsed_after_drag 1 (mouse_at 600) (mkPoint 610 200)
           eq_refl Hrun Hlt).
Defined.

(** ** The pointer position *)

(** The result of a move event does not depend on where the pointer is:
    [drag] returns the same state for any two mouse positions, and for a
    touch event with at least one touch point. *)
Theorem drag_ignores_the_pointer_position (fuel fuel' : nat) (st : State)
    (this : nat) (p q : Point) (touches : list Point) :
  drag fuel st this (MouseEvent p) = drag fuel' st this (MouseEvent q)
  /\ drag fuel st this (MouseEvent p) = drag fuel' st this (TouchEvent (q :: touches)).
Proof.
  assert (Ht : forall e1 e2 x y,
            eventOffset (options st) e1
              (Pair.literal (Z.of_nat this) (Z.of_nat this + 1) (Some (Z.of_nat this)))
            = Js.Done x ->
            eventOffset (options st) e2
              (Pair.literal (Z.of_nat this) (Z.of_nat this + 1) (Some (Z.of_nat this)))
            = Js.Done y ->
            drag_target fuel st this e1 = drag_target fuel' st this e2).
  { intros e1 e2 x y H1 H2.
    rewrite (drag_target_fuel_irrelevant fuel fuel').
    unfold drag_target. rewrite H1, H2.
    apply eventOffset_literal in H1 as ->.
    by apply eventOffset_literal in H2 as ->. }
  unfold drag. destruct (draggingGutter st); [|done].
  split.
  - by rewrite (Ht (MouseEvent p) (MouseEvent q) _ _ eq_refl eq_refl).
  - by rewrite (Ht (MouseEvent p) (TouchEvent (q :: touches)) _ _ eq_refl eq_refl).
Qed.

Lemma collapse_returns_iff_witness :
  isIE8 (options three_panes) = false
  /\ (0 <= 0 /\ 0 + 1 < Z.of_nat (length (panes three_panes)))%Z
  /\ (exists st', collapse three_panes 0 = Js.Done st')
  /\ collapse three_panes 2 = Js.Threw
  /\ collapse three_panes 3 = Js.Threw
  /\ collapse three_panes (-1) = Js.Threw.
Proof.
  assert (Hie : isIE8 (options three_panes) = false) by reflexivity.
  assert (H : (0 <= 0 /\ 0 + 1 < Z.of_nat (length (panes three_panes)))%Z)
    by (simpl; lia).
  split; [exact Hie|]. split; [exact H|].
  split; [exact (proj1 (collapse_returns_iff three_panes 0 Hie) H)|].
  repeat split;
    apply (proj2 (collapse_returns_iff three_panes _ Hie)); simpl; lia.
Defined.
